(** * Invoice routes of simpleinvoice-be: create, update and delete

    A shallow embedding of the invoice router (the Express handlers for
    [POST /], [PATCH /:id] and [DELETE /:id]) together with the part of the
    Prisma schema they touch ([Invoice], [InvoiceItem], [Settings],
    [Customer]).

    - JavaScript numbers are IEEE-754 binary64 values: [PrimFloat.float].
    - JavaScript objects used as records with optional keys are finite maps
      from property names to values ([gmap string _]).
    - The database is an explicit state [Db]; every handler is a function
      from the state before the request to the response and the state after.
    - A Prisma call that throws is a value in the left summand of a sum. *)

From Stdlib Require Import ZArith Ascii PrimFloat FloatOps SpecFloat.
From stdpp Require Import gmap strings list fin_maps pretty sorting.

Set Warnings "-register-all".
Local Open Scope string_scope.
Local Open Scope Z_scope.

(** ** JavaScript values *)

(** A JSON value as [express.json()] hands it to a handler in [req.body]. *)
Inductive json :=
  | JNull
  | JBool (b : bool)
  | JNum (f : float)
  | JStr (s : string)
  | JArr (l : list json)
  | JObj (o : gmap string json).

(** The values a property of the parsed update object can hold. A [Date]
    object carries its time value; [None] is JavaScript's Invalid Date. *)
Inductive jsval :=
  | Undefined
  | Null
  | Str (s : string)
  | DateObj (t : option Z).

Global Instance jsval_eq_dec : EqDecision jsval.
Proof. solve_decision. Defined.

(** [o.k] : reading a property that is not there gives [undefined]. *)
Definition prop (o : gmap string jsval) (k : string) : jsval :=
  default Undefined (o !! k).

(** ['k' in o] *)
Definition has_key (k : string) (o : gmap string jsval) : bool :=
  bool_decide (is_Some (o !! k)).

(** [a === b] on the values above. *)
Definition strict_eq (a b : jsval) : bool := bool_decide (a = b).

(** [s || d] on an optional string: [null] and the empty string are falsy. *)
Definition or_default (s : option string) (d : string) : string :=
  match s with
  | None => d
  | Some EmptyString => d
  | Some p => p
  end.

(** [String(n)] for an integer [n] (decimal digits, a leading minus sign). *)
Definition String_of_int (n : Z) : string := pretty n.

Fixpoint string_repeat (n : nat) (s : string) : string :=
  match n with
  | O => EmptyString
  | S n' => s +:+ string_repeat n' s
  end.

(** [s.padStart(targetLength, padString)] *)
Definition padStart (targetLength : nat) (padString s : string) : string :=
  let len := String.length s in
  if ((targetLength <=? len)%nat || (String.length padString =? 0)%nat)%bool
  then s
  else
    let fillLen := (targetLength - len)%nat in
    String.substring 0 fillLen (string_repeat fillLen padString) +:+ s.

(** ** Zod schemas *)

(** The output types of [createInvoiceSchema]. *)
Module Input.
Record Item := {
  description : string;
  quantity : float;
  price : float;
}.

Record CreateInvoice := {
  customerId : string;
  date : string;
  dueDate : string;
  items : list Item;
  notes : option string;
  taxRate : float;
}.
End Input.

Definition z_string (j : json) : option string :=
  match j with
  | JStr s => Some s
  | _ => None
  end.

(** [z.number()] accepts every number except [NaN]. *)
Definition z_number (j : json) : option float :=
  match j with
  | JNum f => if PrimFloat.is_nan f then None else Some f
  | _ => None
  end.

Definition z_array {A} (element : json → option A) (j : json) : option (list A) :=
  match j with
  | JArr l => mapM element l
  | _ => None
  end.

(** [schema.optional()] applied to the value found under a key of the input
    object: a missing key is accepted and gives [undefined]. *)
Definition z_optional {A} (schema : json → option A) (v : option json)
  : option (option A) :=
  match v with
  | None => Some None
  | Some j => Some <$> schema j
  end.

Definition itemSchema (j : json) : option Input.Item :=
  match j with
  | JObj o =>
      description ← o !! "description" ≫= z_string;
      quantity ← o !! "quantity" ≫= z_number;
      price ← o !! "price" ≫= z_number;
      Some {| Input.description := description;
              Input.quantity := quantity;
              Input.price := price |}
  | _ => None
  end.

(** [createInvoiceSchema.parse(body)]; [None] stands for the thrown
    [ZodError]. *)
Definition createInvoiceSchema (body : json) : option Input.CreateInvoice :=
  match body with
  | JObj o =>
      customerId ← o !! "customerId" ≫= z_string;
      date ← o !! "date" ≫= z_string;
      dueDate ← o !! "dueDate" ≫= z_string;
      items ← o !! "items" ≫= z_array itemSchema;
      notes ← z_optional z_string (o !! "notes");
      taxRate ← o !! "taxRate" ≫= z_number;
      Some {| Input.customerId := customerId;
              Input.date := date;
              Input.dueDate := dueDate;
              Input.items := items;
              Input.notes := notes;
              Input.taxRate := taxRate |}
  | _ => None
  end.

(** ** Prisma schema *)

Inductive InvoiceStatus := UNPAID | PAID | OVERDUE | CANCELLED.

Global Instance InvoiceStatus_eq_dec : EqDecision InvoiceStatus.
Proof. solve_decision. Defined.

Definition InvoiceStatus_of_string (s : string) : option InvoiceStatus :=
  if bool_decide (s = "UNPAID") then Some UNPAID
  else if bool_decide (s = "PAID") then Some PAID
  else if bool_decide (s = "OVERDUE") then Some OVERDUE
  else if bool_decide (s = "CANCELLED") then Some CANCELLED
  else None.

(** [model InvoiceItem]. The rows are kept inside the invoice that owns them
    (they are only ever written by the nested [create] and read back through
    [include: { items: true }]); their generated columns are left out. *)
Record InvoiceItem := {
  description : string;
  quantity : Z;
  price : float;
  amount : float;
}.

(** [model Invoice]; [DateTime] columns hold a time value. *)
Record Invoice := {
  id : string;
  number : string;
  date : Z;
  dueDate : Z;
  status : InvoiceStatus;
  subtotal : float;
  tax : float;
  total : float;
  notes : option string;
  paymentProof : option string;
  paidAt : option Z;
  createdAt : Z;
  updatedAt : Z;
  userId : string;
  customerId : string;
  items : list InvoiceItem;
}.

(** [model Settings], the columns the invoice routes read or write. *)
Record Settings := {
  invoicePrefix : option string;
  nextInvoiceNumber : Z;
}.

(** The tables: settings by their unique [userId], customers by [id]
    (only the existence of a row matters here), invoices by [id]. *)
Record Db := {
  settings : gmap string Settings;
  customer : gset string;
  invoice : gmap string Invoice;
}.

(** The largest value of an [Int] column ([integer] in PostgreSQL). *)
Definition Int_max : Z := 2147483647.
Definition Int_min : Z := -2147483648.

(** The [Int] a JavaScript number denotes, when it is an integer in range. *)
Definition Int_of_number (f : float) : option Z :=
  match Prim2SF f with
  | S754_zero _ => Some 0
  | S754_finite s m e =>
      magnitude ←
        (if 0 <=? e then Some (Z.pos m * 2 ^ e)
         else if Z.pos m mod 2 ^ (- e) =? 0 then Some (Z.pos m / 2 ^ (- e))
         else None);
      let z := if s then - magnitude else magnitude in
      if (Int_min <=? z) && (z <=? Int_max) then Some z else None
  | _ => None
  end.

Inductive PrismaError :=
  | ValidationError        (* an argument of the wrong type or an unknown one *)
  | UniqueConstraintFailed
  | ForeignKeyConstraintFailed
  | RecordNotFound
  | ValueOutOfRange
  | Unavailable.           (* the database could not be reached *)

(** What a request finds around it: the clock ([new Date()], [now()]), the
    [uuid()] drawn for a new invoice, and the write of this request, if any,
    at which the database fails (writes are counted from 0). *)
Record Env := {
  now : Z;
  uuid : string;
  outage : option nat;
}.

Definition write_fails (env : Env) (k : nat) : bool :=
  bool_decide (outage env = Some k).

(** ** Responses *)

Inductive Body :=
  | Data (inv : option Invoice)
  | Failure (message : string).

Inductive Error :=
  | ZodError
  | AppError (statusCode : Z) (message : string)
  | Prisma (e : PrismaError).

(** A handler either answers ([res.status(code).json(body)]) or passes an
    error on ([next(error)]). *)
Inductive Outcome :=
  | Json (code : Z) (body : Body)
  | Next (error : Error).

Record Request := {
  user : string;        (* [req.user.id], set by [authenticate] *)
  params_id : string;   (* [req.params.id] *)
  body : json;
}.

(** The arguments of [prisma.invoice.create] as the route builds them. *)
Module Create.
Record ItemInput := {
  description : string;
  quantity : float;
  price : float;
  amount : float;
}.

Record InvoiceInput := {
  number : string;
  date : option Z;
  dueDate : option Z;
  subtotal : float;
  tax : float;
  total : float;
  notes : option string;
  userId : string;
  customerId : string;
  items : list ItemInput;
}.
End Create.

Section Routes.

(** [new Date(s)]: the time value of the date a string denotes, [None] for
    an Invalid Date. *)
Variable Date_parse : string → option Z.

(** The test behind Zod's [z.string().datetime()]. *)
Variable z_datetime : string → bool.

(** *** [updateInvoiceSchema] *)

Definition z_enum (values : list string) (j : json) : option jsval :=
  match j with
  | JStr s => if bool_decide (s ∈ values) then Some (Str s) else None
  | _ => None
  end.

(** [z.string().nullable()] *)
Definition z_string_nullable (j : json) : option jsval :=
  match j with
  | JNull => Some Null
  | JStr s => Some (Str s)
  | _ => None
  end.

Definition z_string_val (j : json) : option jsval :=
  Str <$> z_string j.

(** [z.string().datetime()] *)
Definition z_string_datetime (j : json) : option jsval :=
  match j with
  | JStr s => if z_datetime s then Some (Str s) else None
  | _ => None
  end.

(** [z.string().datetime().optional().transform(val => val ? new Date(val)
    : undefined)] on a key that is present. *)
Definition z_paidAt (j : json) : option jsval :=
  match j with
  | JStr s =>
      if z_datetime s
      then Some (if (String.length s =? 0)%nat then Undefined
                 else DateObj (Date_parse s))
      else None
  | _ => None
  end.

(** One optional key of a [z.object]: a key missing from the input is
    missing from the output, a key that is present must pass its schema. *)
Definition z_key (k : string) (schema : json → option jsval)
    (o : gmap string json) (out : gmap string jsval)
  : option (gmap string jsval) :=
  match o !! k with
  | None => Some out
  | Some j => v ← schema j; Some (<[k := v]> out)
  end.


(** [updateInvoiceSchema.safeParse(body)]; [None] when [success] is false.
    Keys the schema does not name are dropped. *)
Definition updateInvoiceSchema (body : json) : option (gmap string jsval) :=
  match body with
  | JObj o =>
      out ← z_key "status" (z_enum ["UNPAID"; "PAID"; "OVERDUE"; "CANCELLED"]) o ∅;
      out ← z_key "paymentProof" z_string_nullable o out;
      out ← z_key "paymentNote" z_string_nullable o out;
      out ← z_key "dueDate" z_string_datetime o out;
      out ← z_key "notes" z_string_val o out;
      z_key "paidAt" z_paidAt o out
  | _ => None
  end.

(** *** Prisma client *)

(** [@@unique([userId, number])] *)
Definition number_taken (db : Db) (u n : string) : bool :=
  bool_decide (map_Exists (λ _ inv, userId inv = u ∧ number inv = n) (invoice db)).

Definition item_row (i : Create.ItemInput) : option InvoiceItem :=
  q ← Int_of_number (Create.quantity i);
  Some {| description := Create.description i;
          quantity := q;
          price := Create.price i;
          amount := Create.amount i |}.

(** The row [prisma.invoice.create] inserts: the columns the route gives,
    the defaults of the schema for the others. *)
Definition created_row (env : Env) (data : Create.InvoiceInput)
    (d due : Z) (rows : list InvoiceItem) : Invoice :=
  {| id := uuid env;
     number := Create.number data;
     date := d;
     dueDate := due;
     status := UNPAID;
     subtotal := Create.subtotal data;
     tax := Create.tax data;
     total := Create.total data;
     notes := Create.notes data;
     paymentProof := None;
     paidAt := None;
     createdAt := now env;
     updatedAt := now env;
     userId := Create.userId data;
     customerId := Create.customerId data;
     items := rows |}.

(** [prisma.invoice.create({ data, include })] as write number [k] of the
    request. The arguments are checked first (an Invalid Date or a number
    that is no [Int] is refused), then the row is inserted under the
    constraints of the schema. Nothing is written when it throws. *)
Definition invoice_create (env : Env) (k : nat) (db : Db)
    (data : Create.InvoiceInput) : PrismaError + (Invoice * Db) :=
  match Create.date data, Create.dueDate data, mapM item_row (Create.items data) with
  | Some d, Some due, Some rows =>
      if write_fails env k then inl Unavailable
      else if bool_decide (is_Some (invoice db !! uuid env))
      then inl UniqueConstraintFailed
      else if number_taken db (Create.userId data) (Create.number data)
      then inl UniqueConstraintFailed
      else if bool_decide (Create.customerId data ∈ customer db)
      then
        let row := created_row env data d due rows in
        inr (row, {| settings := settings db;
                     customer := customer db;
                     invoice := <[uuid env := row]> (invoice db) |})
      else inl ForeignKeyConstraintFailed
  | _, _, _ => inl ValidationError
  end.

(** [prisma.settings.update({ where: { userId }, data: { nextInvoiceNumber:
    { increment: 1 } } })] as write number [k] of the request. *)
Definition settings_update_increment (env : Env) (k : nat) (db : Db)
    (u : string) : PrismaError + Db :=
  if write_fails env k then inl Unavailable
  else
    match settings db !! u with
    | None => inl RecordNotFound
    | Some st =>
        if Int_max <? nextInvoiceNumber st + 1 then inl ValueOutOfRange
        else
          inr {| settings :=
                   <[u := {| invoicePrefix := invoicePrefix st;
                             nextInvoiceNumber := nextInvoiceNumber st + 1 |}]>
                     (settings db);
                 customer := customer db;
                 invoice := invoice db |}
    end.

(** How [update] treats the value given for a column: [undefined] leaves
    the column alone, [null] clears a nullable one. *)
Definition column_status (v : jsval) (old : InvoiceStatus) : option InvoiceStatus :=
  match v with
  | Undefined => Some old
  | Str s => InvoiceStatus_of_string s
  | _ => None
  end.

Definition column_String_opt (v : jsval) (old : option string)
  : option (option string) :=
  match v with
  | Undefined => Some old
  | Null => Some None
  | Str s => Some (Some s)
  | DateObj _ => None
  end.

Definition column_DateTime (v : jsval) (old : Z) : option Z :=
  match v with
  | Undefined => Some old
  | Null => None
  | Str s => Date_parse s
  | DateObj t => t
  end.

Definition column_DateTime_opt (v : jsval) (old : option Z)
  : option (option Z) :=
  match v with
  | Undefined => Some old
  | Null => Some None
  | Str s => Some <$> Date_parse s
  | DateObj t => Some <$> t
  end.

(** The columns of [Invoice] the update route can name. *)
Definition update_columns : gset string :=
  {[ "status"; "paymentProof"; "dueDate"; "notes"; "paidAt" ]}.

(** The row an update leaves behind: the five columns follow [data],
    [updatedAt] follows the clock. [None] when a value has the wrong type. *)
Definition updated_row (env : Env) (inv : Invoice) (data : gmap string jsval)
  : option Invoice :=
  status' ← column_status (prop data "status") (status inv);
  paymentProof' ← column_String_opt (prop data "paymentProof") (paymentProof inv);
  dueDate' ← column_DateTime (prop data "dueDate") (dueDate inv);
  notes' ← column_String_opt (prop data "notes") (notes inv);
  paidAt' ← column_DateTime_opt (prop data "paidAt") (paidAt inv);
  Some {| id := id inv;
          number := number inv;
          date := date inv;
          dueDate := dueDate';
          status := status';
          subtotal := subtotal inv;
          tax := tax inv;
          total := total inv;
          notes := notes';
          paymentProof := paymentProof';
          paidAt := paidAt';
          createdAt := createdAt inv;
          updatedAt := now env;
          userId := userId inv;
          customerId := customerId inv;
          items := items inv |}.

(** [prisma.invoice.update({ where: { id }, data })] as write number [k]
    of the request. A key of [data] that names no column (the route could
    only leave [paymentNote] behind) is refused. *)
Definition invoice_update (env : Env) (k : nat) (db : Db) (i : string)
    (data : gmap string jsval) : PrismaError + (Invoice * Db) :=
  if bool_decide (dom data ⊆ update_columns) then
    match invoice db !! i with
    | None => inl RecordNotFound
    | Some inv =>
        match updated_row env inv data with
        | Some row =>
            if write_fails env k then inl Unavailable
            else inr (row, {| settings := settings db;
                              customer := customer db;
                              invoice := <[i := row]> (invoice db) |})
        | None => inl ValidationError
        end
    end
  else inl ValidationError.

(** [prisma.invoice.delete({ where: { id, userId } })] as write number [k]
    of the request. *)
Definition invoice_delete (env : Env) (k : nat) (db : Db) (i u : string)
  : PrismaError + Db :=
  match invoice db !! i with
  | Some inv =>
      if bool_decide (userId inv = u) then
        if write_fails env k then inl Unavailable
        else inr {| settings := settings db;
                    customer := customer db;
                    invoice := delete i (invoice db) |}
      else inl RecordNotFound
  | None => inl RecordNotFound
  end.

(** *** Route handlers *)

(** [data.items.reduce((sum, item) => sum + item.quantity * item.price, 0)] *)
Definition items_subtotal (l : list Input.Item) : float :=
  fold_left (λ sum item, sum + Input.quantity item * Input.price item)%float l 0%float.

Definition item_input (item : Input.Item) : Create.ItemInput :=
  {| Create.description := Input.description item;
     Create.quantity := Input.quantity item;
     Create.price := Input.price item;
     Create.amount := (Input.quantity item * Input.price item)%float |}.

Definition invoice_number (st : Settings) : string :=
  let invoicePrefix := or_default (invoicePrefix st) "INV" in
  let nextNumber := nextInvoiceNumber st in
  invoicePrefix +:+ padStart 5 "0" (String_of_int nextNumber).

(** The [data] argument the create route gives [prisma.invoice.create]. *)
Definition create_data (userId invoiceNumber : string)
    (subtotal tax total : float) (data : Input.CreateInvoice)
  : Create.InvoiceInput :=
  {| Create.number := invoiceNumber;
     Create.date := Date_parse (Input.date data);
     Create.dueDate := Date_parse (Input.dueDate data);
     Create.subtotal := subtotal;
     Create.tax := tax;
     Create.total := total;
     Create.notes := Input.notes data;
     Create.userId := userId;
     Create.customerId := Input.customerId data;
     Create.items := item_input <$> Input.items data |}.

(** [router.post("/")]: create invoice. *)
Definition create_invoice (env : Env) (db : Db) (req : Request) : Outcome * Db :=
  let userId := user req in
  match createInvoiceSchema (body req) with
  | None => (Next ZodError, db)
  | Some data =>
      let subtotal := items_subtotal (Input.items data) in
      let tax := (subtotal * Input.taxRate data / 100)%float in
      let total := (subtotal + tax)%float in
      match settings db !! userId with
      | None => (Next (AppError 400 "User settings not found"), db)
      | Some st =>
          let invoiceNumber := invoice_number st in
          match invoice_create env 0 db
                  (create_data userId invoiceNumber subtotal tax total data) with
          | inl e => (Next (Prisma e), db)
          | inr (created, db1) =>
              match settings_update_increment env 1 db1 userId with
              | inl e => (Next (Prisma e), db1)
              | inr db2 => (Json 200 (Data (Some created)), db2)
              end
          end
      end
  end.

(** The object handed to [prisma.invoice.update] by the update route. *)
Definition finalUpdateData (inv : Invoice) (env : Env)
    (data : gmap string jsval) : gmap string jsval :=
  let final :=
    <["paymentProof" := prop data "paymentProof"]>
      (<["notes" := if has_key "paymentNote" data
                    then prop data "paymentNote" else Undefined]> data) in
  let final :=
    if has_key "paymentNote" final then delete "paymentNote" final else final in
  if strict_eq (prop final "status") (Str "PAID")
     && negb (bool_decide (status inv = PAID))
  then <["paidAt" := DateObj (Some (now env))]> final
  else final.

(** [router.patch("/:id")]: update invoice. *)
Definition update_invoice (env : Env) (db : Db) (req : Request) : Outcome * Db :=
  let i := params_id req in
  match updateInvoiceSchema (body req) with
  | None => (Json 400 (Failure "Data tidak valid"), db)
  | Some data =>
      match invoice db !! i with
      | None => (Json 404 (Failure "Faktur tidak ditemukan"), db)
      | Some inv =>
          if bool_decide (status inv = PAID)
             && negb (strict_eq (prop data "status") (Str "CANCELLED"))
          then (Json 400 (Failure "Faktur yang sudah lunas tidak dapat diubah statusnya"), db)
          else if bool_decide (status inv = CANCELLED)
          then (Json 400 (Failure "Faktur yang sudah dibatalkan tidak dapat diubah"), db)
          else
            match invoice_update env 0 db i (finalUpdateData inv env data) with
            | inl _ => (Json 500 (Failure "Gagal memperbarui faktur"), db)
            | inr (updated, db1) => (Json 200 (Data (Some updated)), db1)
            end
      end
  end.

(** [router.delete("/:id")]: delete invoice. *)
Definition delete_invoice (env : Env) (db : Db) (req : Request) : Outcome * Db :=
  match invoice_delete env 0 db (params_id req) (user req) with
  | inl e => (Next (Prisma e), db)
  | inr db1 => (Json 200 (Data None), db1)
  end.

(** *** Sequences of requests *)

Inductive Route := POST | PATCH | DELETE.

Record Call := {
  route : Route;
  call_env : Env;
  call_req : Request;
}.

Definition handle (db : Db) (c : Call) : Outcome * Db :=
  match route c with
  | POST => create_invoice (call_env c) db (call_req c)
  | PATCH => update_invoice (call_env c) db (call_req c)
  | DELETE => delete_invoice (call_env c) db (call_req c)
  end.

(** What a call allocated, if it inserted an invoice: the counter value
    it read from the caller's settings and the row it inserted. *)
Definition allocated (db : Db) (c : Call) : option (Z * Invoice) :=
  match route c with
  | POST =>
      match invoice db !! uuid (call_env c) with
      | None =>
          inv ← invoice (handle db c).2 !! uuid (call_env c);
          st ← settings db !! user (call_req c);
          Some (nextInvoiceNumber st, inv)
      | Some _ => None
      end
  | _ => None
  end.

(** The state after a sequence of calls, and what they allocated, oldest
    first. Invoices deleted along the way stay in this log. *)
Fixpoint run (db : Db) (calls : list Call) : Db * list (Z * Invoice) :=
  match calls with
  | [] => (db, [])
  | c :: rest =>
      let '(db', log) := run (handle db c).2 rest in
      (db', from_option (λ a, a :: log) log (allocated db c))
  end.

Definition is_success (o : Outcome) : bool :=
  match o with
  | Json 200 (Data _) => true
  | _ => false
  end.



End Routes.




(** ** Sample requests *)

Module Sample.

Definition Date_parse (s : string) : option Z :=
  if bool_decide (s = EmptyString) then None else Some 1700000000000.

Definition z_datetime (s : string) : bool := bool_decide (s ≠ EmptyString).

Definition obj (l : list (string * json)) : json := JObj (list_to_map l).

Definition item (d : string) (q p : float) : json :=
  obj [("description", JStr d); ("quantity", JNum q); ("price", JNum p)].

Definition create_body (its : list json) (rate : float) : json :=
  obj [("customerId", JStr "c1"); ("date", JStr "2024-01-01");
       ("dueDate", JStr "2024-02-01"); ("items", JArr its);
       ("taxRate", JNum rate)].

Definition two_items : list json := [item "A" 2 100; item "B" 1 50].


(** A tenant [alice] with one customer and no invoice yet. *)
Definition db0 (prefix : option string) (n : Z) : Db :=
  {| settings := {[ "alice" := {| invoicePrefix := prefix; nextInvoiceNumber := n |} ]};
     customer := {[ "c1" ]};
     invoice := ∅ |}.

Definition env (i : string) (o : option nat) : Env :=
  {| now := 1000; uuid := i; outage := o |}.

Definition post (u : string) (b : json) : Request :=
  {| user := u; params_id := EmptyString; body := b |}.

Definition patch (u i : string) (l : list (string * json)) : Request :=
  {| user := u; params_id := i; body := obj l |}.

Definition invoice_A (i u : string) (st : InvoiceStatus) (paid : option Z) : Invoice :=
  {| id := i; number := "INV00001"; date := 10; dueDate := 20; status := st;
     subtotal := 250; tax := 25; total := 275; notes := Some "first";
     paymentProof := None; paidAt := paid; createdAt := 10; updatedAt := 10;
     userId := u; customerId := "c1";
     items := [ {| description := "A"; quantity := 2; price := 100; amount := 200 |};
                {| description := "B"; quantity := 1; price := 50; amount := 50 |} ] |}.

(** A store holding the single invoice [i1], owned by [u]. *)
Definition db1 (u : string) (st : InvoiceStatus) (paid : option Z) : Db :=
  {| settings := {[ u := {| invoicePrefix := Some "INV"; nextInvoiceNumber := 2 |} ]};
     customer := {[ "c1" ]};
     invoice := {[ "i1" := invoice_A "i1" u st paid ]} |}.

(** The row a create call of [alice] with [two_items] at 10 percent leaves. *)
Definition created (i num : string) : Invoice :=
  {| id := i; number := num; date := 1700000000000; dueDate := 1700000000000;
     status := UNPAID; subtotal := 250; tax := 25; total := 275; notes := None;
     paymentProof := None; paidAt := None; createdAt := 1000; updatedAt := 1000;
     userId := "alice"; customerId := "c1";
     items := [ {| description := "A"; quantity := 2; price := 100; amount := 200 |};
                {| description := "B"; quantity := 1; price := 50; amount := 50 |} ] |}.

Definition create_call (i : string) (o : option nat) : Call :=
  {| route := POST; call_env := env i o;
     call_req := post "alice" (create_body two_items 10) |}.


End Sample.

(** ** The routes that read *)

(** [prisma.invoice.findUnique({ where: { id, userId } })], and [findFirst]
    under the same filter. The relations the routes include with the row
    (the customer, a few columns of the user) are not in [Db] and are left
    out of the answer; the user columns the routes name there are taken to
    be columns of the database the client was generated for. Reading is
    taken to go through: the [outage] of a request counts its writes. *)
Definition invoice_find_owned (db : Db) (i u : string) : option Invoice :=
  match invoice db !! i with
  | Some inv => if bool_decide (userId inv = u) then Some inv else None
  | None => None
  end.


(** [orderBy: { createdAt: "desc" }]: the first of two rows is not older
    than the second. *)
Definition newer (a b : Invoice) : Prop := createdAt b ≤ createdAt a.

Global Instance newer_dec : RelDecision newer.
Proof. intros a b. unfold newer. apply _. Defined.

Global Instance newer_total : Total newer.
Proof. intros a b. unfold newer. lia. Defined.

Global Instance newer_trans : Transitive newer.
Proof. intros a b c. unfold newer. lia. Defined.

(** The rows of a tenant, in the order the table is walked. *)
Definition tenant_rows (db : Db) (u : string) : list Invoice :=
  filter (λ inv, userId inv = u) (map_to_list (invoice db)).*2.

(** [prisma.invoice.findMany({ where: { userId }, orderBy: { createdAt:
    "desc" } })]. Rows created at the same instant come in an order the
    database is free to choose; the sort fixes one. *)
Definition invoice_findMany (db : Db) (u : string) : list Invoice :=
  merge_sort newer (tenant_rows db u).

(** [router.get("/")]: get all invoices; the [data] of the answer. *)
Definition list_invoices (db : Db) (req : Request) : list Invoice :=
  invoice_findMany db (user req).

(** What [sendInvoiceEmail] does with an invoice: it returns, throws an
    [Error] with a message, or throws something else. *)
Inductive EmailResult :=
  | Delivered
  | ThrowsError (message : string)
  | ThrowsOther.

(** [router.post("/:id/send")]: send invoice. The answer is the status code
    with the text of its [error] or [message] field; beside it the invoices
    that were handed to [sendInvoiceEmail]. *)
Definition send_invoice (sendInvoiceEmail : Invoice → EmailResult)
    (db : Db) (req : Request) : (Z * string) * list Invoice :=
  let userId := user req in
  if bool_decide (userId = EmptyString) then ((401, "Unauthorized"), [])
  else
    match invoice_find_owned db (params_id req) userId with
    | None => ((500, "Invoice not found"), [])
    | Some inv =>
        if bool_decide (status inv = CANCELLED)
        then ((500, "Cannot send cancelled invoice"), [])
        else
          match sendInvoiceEmail inv with
          | Delivered => ((200, "Invoice sent successfully"), [inv])
          | ThrowsError message => ((500, message), [inv])
          | ThrowsOther => ((500, "Failed to send invoice"), [inv])
          end
    end.



(** ** The upload filter *)

(** [hay.includes(needle)] *)
Fixpoint includes (needle hay : string) : bool :=
  String.prefix needle hay
  || match hay with
     | EmptyString => false
     | String _ rest => includes needle rest
     end.

(** [/jpeg|jpg|png/.test(s)]: the pattern has no anchor, so it asks for one
    of the three words anywhere in [s]. *)
Definition allowedTypes_test (s : string) : bool :=
  includes "jpeg" s || includes "jpg" s || includes "png" s.

Inductive FilterResult :=
  | Accept
  | Reject (message : string).

(** [fileFilter] of the upload, on [file.mimetype]. *)
Definition fileFilter (mimetype : string) : FilterResult :=
  if allowedTypes_test mimetype then Accept
  else Reject "Hanya file gambar yang diperbolehkan (JPG, JPEG, PNG)".

(** ** Dashboard statistics *)

(** [prisma.invoice.count({ where: { userId } })] *)
Definition invoice_count (db : Db) (u : string) : nat :=
  length (tenant_rows db u).

Definition InvoiceStatus_name (st : InvoiceStatus) : string :=
  match st with
  | UNPAID => "UNPAID"
  | PAID => "PAID"
  | OVERDUE => "OVERDUE"
  | CANCELLED => "CANCELLED"
  end.

(** [prisma.invoice.groupBy({ by: ["status"], where: { userId }, _count:
    true, orderBy: { status: "asc" } })]: one group for each status that has
    a row, in the order the enum declares its values. *)
Definition invoice_groupBy_status (db : Db) (u : string)
  : list (InvoiceStatus * nat) :=
  filter (λ g, g.2 ≠ 0%nat)
    ((λ st, (st, length (filter (λ inv, status inv = st) (tenant_rows db u))))
       <$> [UNPAID; PAID; OVERDUE; CANCELLED]).

(** [statusDistribution.map((status) => ({ name: status.status, value:
    status._count }))] *)
Definition statusDistribution (db : Db) (u : string) : list (string * nat) :=
  (λ g, (InvoiceStatus_name g.1, g.2)) <$> invoice_groupBy_status db u.

(** One step of the reduction that groups the daily revenue: the first day
    of [acc] with the time value [date] gets [total] added, and when there
    is none a new day is pushed at the end. *)
Fixpoint add_to_day (date : Z) (total : float) (acc : list (Z * float))
  : list (Z * float) :=
  match acc with
  | [] => [(date, total)]
  | day :: rest =>
      if bool_decide (day.1 = date) then (day.1, (day.2 + total)%float) :: rest
      else day :: add_to_day date total rest
  end.

(** [dailyRevenue.reduce(..., [])] on the rows [{ date, total }] of the
    query; [startOfDay] is the function of date-fns, on time values. *)
Definition dailyRevenueGrouped (startOfDay : Z → Z) (dailyRevenue : list (Z * float))
  : list (Z * float) :=
  fold_left (λ acc inv, add_to_day (startOfDay inv.1) inv.2 acc) dailyRevenue [].

(** The revenue of the day [d] as the reduction above adds it up: the
    totals of the rows of that day, in the order of the rows, added one
    after the other to the first. [None] when the day has no row. *)
Definition day_total (startOfDay : Z → Z) (d : Z) (rows : list (Z * float))
  : option float :=
  match (filter (λ r, startOfDay r.1 = d) rows).*2 with
  | [] => None
  | first :: others => Some (fold_left PrimFloat.add others first)
  end.

(** ** The profile routes of the user router *)

Module Users.
(** [model User], the columns the profile routes select or write. *)
Record User := {
  email : string;
  password : string;
  businessName : string;
  businessLogo : option string;
  businessEmail : option string;
  businessPhone : option string;
  businessAddress : option string;
  isGoogleUser : bool;
  hasPassword : bool;
  updatedAt : Z;
}.

(** The output of [updateProfileSchema]. An optional key that is missing
    is [None]; under a nullable key [Some None] is [null]. *)
Record ProfileInput := {
  in_businessName : option string;
  in_businessLogo : option string;
  in_businessAddress : option (option string);
  in_businessPhone : option (option string);
  in_businessEmail : option (option string);
  in_currentPassword : option string;
  in_newPassword : option string;
}.

(** The output of [updatePasswordSchema]. *)
Record PasswordInput := {
  currentPassword : option string;
  newPassword : string;
}.

(** The columns the profile route selects for its answer. *)
Record Profile := {
  p_id : string;
  p_email : string;
  p_businessName : string;
  p_businessLogo : option string;
  p_businessAddress : option string;
  p_businessPhone : option string;
  p_businessEmail : option string;
  p_isGoogleUser : bool;
  p_hasPassword : bool;
}.
End Users.

Inductive UserOutcome :=
  | UserData (data : Users.Profile)
  | UserMessage (message : string)
  | UserNext (error : Error).

(** [z.string().min(n)]; a string is taken as its sequence of code units. *)
Definition z_string_min (n : nat) (j : json) : option string :=
  match j with
  | JStr s => if (n <=? String.length s)%nat then Some s else None
  | _ => None
  end.

(** [z.string().transform(val => val === "" ? null : val).refine(val =>
    val === null || test(val)).nullable().optional()] on the value found
    under a key. *)
Definition z_clearable (test : string → bool) (v : option json)
  : option (option (option string)) :=
  match v with
  | None => Some None
  | Some JNull => Some (Some None)
  | Some (JStr s) =>
      if bool_decide (s = EmptyString) then Some (Some None)
      else if test s then Some (Some (Some s))
      else None
  | Some _ => None
  end.

(** [!s] on an optional string. *)
Definition falsy (s : option string) : bool :=
  match s with
  | None => true
  | Some EmptyString => true
  | Some _ => false
  end.

Section UserRoutes.

(** The tests of the two patterns of [updateProfileSchema], for the phone
    number and for the business email. *)
Variable phone_test : string → bool.
Variable email_test : string → bool.

(** [bcrypt.compare(plain, hash)], and [bcrypt.hash(plain, 10)] under the
    salt it draws. *)
Variable bcrypt_compare : string → string → bool.
Variable bcrypt_hash : string → string → string.

Definition updatePasswordSchema (body : json) : option Users.PasswordInput :=
  match body with
  | JObj o =>
      currentPassword ← z_optional z_string (o !! "currentPassword");
      newPassword ← o !! "newPassword" ≫= z_string_min 8;
      Some {| Users.currentPassword := currentPassword;
              Users.newPassword := newPassword |}
  | _ => None
  end.

Definition updateProfileSchema (body : json) : option Users.ProfileInput :=
  match body with
  | JObj o =>
      businessName ← z_optional (z_string_min 2) (o !! "businessName");
      businessLogo ← z_optional z_string (o !! "businessLogo");
      businessAddress ← z_clearable (λ _, true) (o !! "businessAddress");
      businessPhone ← z_clearable phone_test (o !! "businessPhone");
      businessEmail ← z_clearable email_test (o !! "businessEmail");
      currentPassword ← z_optional z_string (o !! "currentPassword");
      newPassword ← z_optional (z_string_min 8) (o !! "newPassword");
      Some {| Users.in_businessName := businessName;
              Users.in_businessLogo := businessLogo;
              Users.in_businessAddress := businessAddress;
              Users.in_businessPhone := businessPhone;
              Users.in_businessEmail := businessEmail;
              Users.in_currentPassword := currentPassword;
              Users.in_newPassword := newPassword |}
  | _ => None
  end.

(** [prisma.user.update({ where: { id }, data })] as write number [k] of
    the request; [row] is the row with [data] applied. *)
Definition user_update (env : Env) (k : nat) (users : gmap string Users.User)
    (i : string) (row : Users.User) : PrismaError + gmap string Users.User :=
  if write_fails env k then inl Unavailable
  else
    match users !! i with
    | None => inl RecordNotFound
    | Some _ => inr (<[i := row]> users)
    end.

(** [router.patch("/profile/password")]: update password endpoint. *)
Definition update_password (salt : string) (env : Env)
    (users : gmap string Users.User) (req : Request)
  : UserOutcome * gmap string Users.User :=
  let userId := user req in
  match updatePasswordSchema (body req) with
  | None => (UserNext ZodError, users)
  | Some data =>
      match users !! userId with
      | None => (UserNext (AppError 404 "Pengguna tidak ditemukan"), users)
      | Some currentUser =>
          let checked : option Error :=
            if negb (Users.isGoogleUser currentUser)
               || (Users.isGoogleUser currentUser && Users.hasPassword currentUser)
            then
              if falsy (Users.currentPassword data)
              then Some (AppError 400 "Kata sandi saat ini wajib diisi")
              else if negb (bcrypt_compare (default EmptyString (Users.currentPassword data))
                              (Users.password currentUser))
              then Some (AppError 400 "Kata sandi saat ini tidak sesuai")
              else if bcrypt_compare (Users.newPassword data) (Users.password currentUser)
              then Some (AppError 400
                           "Kata sandi baru tidak boleh sama dengan kata sandi sebelumnya")
              else None
            else None in
          match checked with
          | Some e => (UserNext e, users)
          | None =>
              let hashedPassword := bcrypt_hash salt (Users.newPassword data) in
              match user_update env 0 users userId
                      {| Users.email := Users.email currentUser;
                         Users.password := hashedPassword;
                         Users.businessName := Users.businessName currentUser;
                         Users.businessLogo := Users.businessLogo currentUser;
                         Users.businessEmail := Users.businessEmail currentUser;
                         Users.businessPhone := Users.businessPhone currentUser;
                         Users.businessAddress := Users.businessAddress currentUser;
                         Users.isGoogleUser := Users.isGoogleUser currentUser;
                         Users.hasPassword := true;
                         Users.updatedAt := now env |} with
              | inl e => (UserNext (Prisma e), users)
              | inr users1 =>
                  (UserMessage (if Users.hasPassword currentUser
                                then "Kata sandi berhasil diperbarui"
                                else "Kata sandi berhasil diatur"),
                   users1)
              end
          end
      end
  end.

(** The password part of the profile route: [None] when no new password is
    asked for, else the error it throws or the [passwordUpdate] it builds
    (the new hash). *)
Definition passwordUpdate (salt : string) (currentUser : Users.User)
    (currentPassword newPassword : option string) : option (Error + string) :=
  if falsy newPassword then None
  else
    let new := default EmptyString newPassword in
    if Users.hasPassword currentUser && falsy currentPassword
    then Some (inl (AppError 400 "Kata sandi saat ini wajib diisi"))
    else if Users.hasPassword currentUser && negb (falsy currentPassword)
    then
      if negb (bcrypt_compare (default EmptyString currentPassword)
                 (Users.password currentUser))
      then Some (inl (AppError 400 "Kata sandi saat ini tidak sesuai"))
      else if bcrypt_compare new (Users.password currentUser)
      then Some (inl (AppError 400
                        "Kata sandi baru tidak boleh sama dengan kata sandi sebelumnya"))
      else Some (inr (bcrypt_hash salt new))
    else Some (inr (bcrypt_hash salt new)).

(** The row [prisma.user.update] writes for [{ ...updateData,
    ...passwordUpdate }]: a key that is missing leaves its column alone. *)
Definition profile_row (env : Env) (currentUser : Users.User)
    (data : Users.ProfileInput) (hashed : option string) : Users.User :=
  {| Users.email := Users.email currentUser;
     Users.password := default (Users.password currentUser) hashed;
     Users.businessName :=
       default (Users.businessName currentUser) (Users.in_businessName data);
     Users.businessLogo :=
       match Users.in_businessLogo data with
       | Some logo => Some logo
       | None => Users.businessLogo currentUser
       end;
     Users.businessEmail :=
       default (Users.businessEmail currentUser) (Users.in_businessEmail data);
     Users.businessPhone :=
       default (Users.businessPhone currentUser) (Users.in_businessPhone data);
     Users.businessAddress :=
       default (Users.businessAddress currentUser) (Users.in_businessAddress data);
     Users.isGoogleUser := Users.isGoogleUser currentUser;
     Users.hasPassword :=
       match hashed with
       | Some _ => true
       | None => Users.hasPassword currentUser
       end;
     Users.updatedAt := now env |}.

Definition selected (i : string) (u : Users.User) : Users.Profile :=
  {| Users.p_id := i;
     Users.p_email := Users.email u;
     Users.p_businessName := Users.businessName u;
     Users.p_businessLogo := Users.businessLogo u;
     Users.p_businessAddress := Users.businessAddress u;
     Users.p_businessPhone := Users.businessPhone u;
     Users.p_businessEmail := Users.businessEmail u;
     Users.p_isGoogleUser := Users.isGoogleUser u;
     Users.p_hasPassword := Users.hasPassword u |}.

(** [router.patch("/profile")]: update user profile. *)
Definition update_profile (salt : string) (env : Env)
    (users : gmap string Users.User) (req : Request)
  : UserOutcome * gmap string Users.User :=
  let userId := user req in
  match updateProfileSchema (body req) with
  | None => (UserNext ZodError, users)
  | Some data =>
      match users !! userId with
      | None => (UserNext (AppError 404 "Pengguna tidak ditemukan"), users)
      | Some currentUser =>
          match passwordUpdate salt currentUser (Users.in_currentPassword data)
                  (Users.in_newPassword data) with
          | Some (inl e) => (UserNext e, users)
          | hashed =>
              let row :=
                profile_row env currentUser data
                  (match hashed with Some (inr h) => Some h | _ => None end) in
              match user_update env 0 users userId row with
              | inl e => (UserNext (Prisma e), users)
              | inr users1 => (UserData (selected userId row), users1)
              end
          end
      end
  end.

End UserRoutes.

(** ** Sample users *)

Module SampleUsers.

(** Stand-ins for the two patterns and for bcrypt: one phone number and one
    address pass, and a hash is the salt followed by the password. *)
Definition phone_test (s : string) : bool := bool_decide (s = "081234567890").

Definition email_test (s : string) : bool := bool_decide (s = "toko@example.com").

Definition bcrypt_hash (salt plain : string) : string := salt +:+ plain.

Definition bcrypt_compare (plain hash : string) : bool :=
  bool_decide (hash = "salt" +:+ plain).

(** A user who signed up by hand: the two flags have the defaults of their
    columns. *)
Definition alice : Users.User :=
  {| Users.email := "alice@example.com";
     Users.password := "saltpassword1";
     Users.businessName := "Toko Alice";
     Users.businessLogo := None;
     Users.businessEmail := Some "toko@example.com";
     Users.businessPhone := Some "081234567890";
     Users.businessAddress := None;
     Users.isGoogleUser := false;
     Users.hasPassword := false;
     Users.updatedAt := 10 |}.

Definition users : gmap string Users.User := {[ "alice" := alice ]}.

Definition new_password : Request :=
  {| user := "alice"; params_id := EmptyString;
     body := JObj {[ "newPassword" := JStr "password2" ]} |}.

End SampleUsers.

(** ** Strings: padding and the decimal form of the counter *)

Lemma string_app_cons (c : ascii) (s t : string) :
  String c s +:+ t = String c (s +:+ t).
Proof. reflexivity. Qed.


Lemma string_repeat_zero_S (k : nat) :
  string_repeat (S k) "0" = String "0" (string_repeat k "0").
Proof. reflexivity. Qed.

Lemma substring_all (t : string) : String.substring 0 (String.length t) t = t.
Proof. induction t as [|c t IH]; simpl; [done | by rewrite IH]. Qed.

Lemma string_repeat_zero_length (k : nat) :
  String.length (string_repeat k "0") = k.
Proof.
  induction k as [|k IH]; [done|].
  rewrite string_repeat_zero_S. simpl. by rewrite IH.
Qed.

Lemma padStart_zeros (s : string) :
  padStart 5 "0" s = string_repeat (5 - String.length s) "0" +:+ s.
Proof.
  unfold padStart. simpl (String.length "0" =? 0)%nat. rewrite orb_false_r.
  destruct (Nat.leb_spec 5 (String.length s)) as [Hle|Hlt].
  - by replace (5 - String.length s)%nat with 0%nat by lia.
  - set (k := (5 - String.length s)%nat).
    trans (String.substring 0 (String.length (string_repeat k "0"))
             (string_repeat k "0") +:+ s).
    + by rewrite string_repeat_zero_length.
    + by rewrite substring_all.
Qed.









(** ** The Prisma calls, case by case *)

Lemma invoice_create_inr env k db data row db1 :
  invoice_create env k db data = inr (row, db1) →
  ∃ d due rows,
    Create.date data = Some d ∧ Create.dueDate data = Some due ∧
    mapM item_row (Create.items data) = Some rows ∧
    write_fails env k = false ∧
    invoice db !! uuid env = None ∧
    number_taken db (Create.userId data) (Create.number data) = false ∧
    Create.customerId data ∈ customer db ∧
    row = created_row env data d due rows ∧
    db1 = {| settings := settings db; customer := customer db;
             invoice := <[uuid env := row]> (invoice db) |}.
Proof.
  unfold invoice_create. intros H.
  destruct (Create.date data) as [d|]; [|done].
  destruct (Create.dueDate data) as [due|]; [|done].
  destruct (mapM item_row (Create.items data)) as [rows|]; [|done].
  destruct (write_fails env k) eqn:Hw; [done|].
  case_bool_decide as Hid; [done|].
  destruct (number_taken _ _ _) eqn:Hn; [done|].
  case_bool_decide as Hc; [|done].
  simplify_eq. exists d, due, rows. repeat split; try done.
  by apply eq_None_not_Some.
Qed.

Lemma settings_update_increment_inr env k db u db2 :
  settings_update_increment env k db u = inr db2 →
  ∃ st,
    settings db !! u = Some st ∧ write_fails env k = false ∧
    nextInvoiceNumber st + 1 ≤ Int_max ∧
    db2 = {| settings :=
               <[u := {| invoicePrefix := invoicePrefix st;
                         nextInvoiceNumber := nextInvoiceNumber st + 1 |}]>
                 (settings db);
             customer := customer db; invoice := invoice db |}.
Proof.
  unfold settings_update_increment. intros H.
  destruct (write_fails env k) eqn:Hw; [done|].
  destruct (settings db !! u) as [st|]; [|done].
  destruct (Z.ltb_spec Int_max (nextInvoiceNumber st + 1)); [done|].
  simplify_eq. by exists st.
Qed.

Section Properties.

Variable Date_parse : string → option Z.
Variable z_datetime : string → bool.

(** *** Create *)

(** The three ways a create call can end: nothing written; the invoice
    inserted and the counter left alone; both written. *)
Lemma create_invoice_cases env db req out db' :
  create_invoice Date_parse env db req = (out, db') →
  (db' = db ∧ is_success out = false)
  ∨ ∃ data st d due rows row,
      createInvoiceSchema (body req) = Some data ∧
      settings db !! user req = Some st ∧
      Date_parse (Input.date data) = Some d ∧
      Date_parse (Input.dueDate data) = Some due ∧
      mapM item_row (item_input <$> Input.items data) = Some rows ∧
      row = created_row env
              (create_data Date_parse (user req) (invoice_number st)
                 (items_subtotal (Input.items data))
                 (items_subtotal (Input.items data) * Input.taxRate data / 100)%float
                 (items_subtotal (Input.items data)
                  + items_subtotal (Input.items data) * Input.taxRate data / 100)%float
                 data) d due rows ∧
      write_fails env 0 = false ∧
      invoice db !! uuid env = None ∧
      number_taken db (user req) (invoice_number st) = false ∧
      Input.customerId data ∈ customer db ∧
      invoice db' = <[uuid env := row]> (invoice db) ∧
      customer db' = customer db ∧
      ((settings db' = settings db ∧ is_success out = false
        ∧ (write_fails env 1 = true ∨ Int_max < nextInvoiceNumber st + 1))
       ∨ (settings db' =
            <[user req := {| invoicePrefix := invoicePrefix st;
                             nextInvoiceNumber := nextInvoiceNumber st + 1 |}]>
              (settings db)
          ∧ out = Json 200 (Data (Some row))
          ∧ write_fails env 1 = false
          ∧ nextInvoiceNumber st + 1 ≤ Int_max)).
Proof.
  unfold create_invoice. intros H.
  destruct (createInvoiceSchema (body req)) as [data|] eqn:Hparse;
    [|left; by simplify_eq].
  destruct (settings db !! user req) as [st|] eqn:Hst;
    [|left; by simplify_eq].
  destruct (invoice_create _ _ _ _) as [e|[created db1]] eqn:Hcreate;
    [left; by simplify_eq|].
  apply invoice_create_inr in Hcreate
    as (d & due & rows & Hd & Hdue & Hrows & Hw & Hfresh & Hnum & Hcust & -> & ->).
  right. exists data, st, d, due, rows. eexists. repeat (split; [done|]).
  destruct (settings_update_increment _ _ _ _) as [e|db2] eqn:Hinc.
  - simplify_eq. repeat (split; [done|]). left. repeat (split; [done|]).
    unfold settings_update_increment in Hinc. simpl in Hinc.
    destruct (write_fails env 1); [by left|]. rewrite Hst in Hinc.
    destruct (Z.ltb_spec Int_max (nextInvoiceNumber st + 1)); [by right|done].
  - apply settings_update_increment_inr in Hinc as (st' & Hst' & Hw1 & Hmax & ->).
    simpl in Hst'. simplify_eq. repeat (split; [done|]). by right.
Qed.


(** C2 (amended). A create call that succeeds for a tenant whose settings
    hold the counter n and the prefix p gives the invoice the number made
    of the prefix -- "INV" when p is absent or the empty string, p
    otherwise -- followed by the decimal digits of n padded with zeros on
    the left to width 5, stores the invoice, and leaves the counter at
    n + 1. Prefix "INV" and counter 7 give "INV00007" and the counter 8. *)
Theorem create_number_and_counter env db req st inv db' :
  settings db !! user req = Some st →
  create_invoice Date_parse env db req = (Json 200 (Data (Some inv)), db') →
  let p := if decide (invoicePrefix st = None ∨ invoicePrefix st = Some EmptyString)
           then "INV" else default EmptyString (invoicePrefix st) in
  let digits := String_of_int (nextInvoiceNumber st) in
  number inv = p +:+ (string_repeat (5 - String.length digits) "0" +:+ digits)
  ∧ invoice db' !! uuid env = Some inv
  ∧ nextInvoiceNumber <$> settings db' !! user req = Some (nextInvoiceNumber st + 1)
  ∧ invoicePrefix <$> settings db' !! user req = Some (invoicePrefix st)
  ∧ (invoicePrefix st = Some "INV" → nextInvoiceNumber st = 7 →
     number inv = "INV00007"
     ∧ nextInvoiceNumber <$> settings db' !! user req = Some 8).
Proof.
  intros Hst Hrun p digits.
  apply create_invoice_cases in Hrun
    as [[_ ?]|(data & st' & d & due & rows & row & _ & Hst' & _ & _ & _
               & -> & _ & _ & _ & _ & Hinvs & _ & [(_ & ? & _)|(Hset & ? & _)])];
    try done.
  simplify_eq. rewrite Hinvs, Hset, !lookup_insert_eq. simpl.
  assert (invoice_number st
          = p +:+ (string_repeat (5 - String.length digits) "0" +:+ digits)) as Hnum.
  { unfold invoice_number. rewrite padStart_zeros. f_equal.
    unfold p, or_default.
    destruct (invoicePrefix st) as [[|c q]|];
      destruct (decide _) as [[?|?]|Hd]; simplify_eq; try done;
      exfalso; apply Hd; auto. }
  split; [done|]. split; [done|]. split; [done|]. split; [done|].
  intros Hp Hn. split; [|by rewrite Hn].
  unfold invoice_number. by rewrite Hp, Hn.
Qed.



(** *** Update: what the schema lets through *)




(** *** Update: the object given to Prisma *)

Lemma has_key_lookup k (o : gmap string jsval) :
  has_key k o = match o !! k with Some _ => true | None => false end.
Proof.
  unfold has_key. destruct (o !! k) eqn:E.
  - by apply bool_decide_eq_true_2.
  - apply bool_decide_eq_false_2. by intros [??].
Qed.

Lemma finalUpdateData_lookup inv env data :
  let final := finalUpdateData inv env data in
  final !! "paymentNote" = None
  ∧ final !! "status" = data !! "status"
  ∧ final !! "dueDate" = data !! "dueDate"
  ∧ final !! "paymentProof" = Some (prop data "paymentProof")
  ∧ final !! "notes" = Some (default Undefined (data !! "paymentNote"))
  ∧ final !! "paidAt"
      = (if strict_eq (prop data "status") (Str "PAID")
            && negb (bool_decide (status inv = PAID))
         then Some (DateObj (Some (now env))) else data !! "paidAt")
  ∧ ∀ k, k ∉ ["status"; "paymentProof"; "paymentNote"; "dueDate"; "notes"; "paidAt"] →
         final !! k = data !! k.
Proof.
  unfold finalUpdateData.
  set (f1 := <["paymentProof" := _]> (<["notes" := _]> data)).
  set (f2 := if has_key "paymentNote" f1 then delete "paymentNote" f1 else f1).
  assert (f2 !! "paymentNote" = None) as Hnote.
  { unfold f2. rewrite has_key_lookup.
    destruct (f1 !! "paymentNote") eqn:E; [by rewrite lookup_delete_eq | done]. }
  assert (∀ k, k ≠ "paymentNote" → f2 !! k = f1 !! k) as Hother.
  { intros k Hk. unfold f2. destruct (has_key "paymentNote" f1); [|done].
    by rewrite lookup_delete_ne. }
  assert (prop f2 "status" = prop data "status") as Hstatus.
  { unfold prop. rewrite Hother by done. unfold f1.
    by rewrite !lookup_insert_ne by done. }
  rewrite Hstatus. simpl.
  assert (f1 !! "notes" = Some (default Undefined (data !! "paymentNote"))) as Hnotes.
  { unfold f1. rewrite lookup_insert_ne, lookup_insert_eq by done.
    rewrite has_key_lookup. unfold prop. by destruct (data !! "paymentNote"). }
  destruct (strict_eq _ _ && _).
  - repeat split.
    + by rewrite lookup_insert_ne.
    + rewrite lookup_insert_ne, Hother by done. unfold f1.
      by rewrite !lookup_insert_ne.
    + rewrite lookup_insert_ne, Hother by done. unfold f1.
      by rewrite !lookup_insert_ne.
    + rewrite lookup_insert_ne, Hother by done. unfold f1.
      by rewrite lookup_insert_eq.
    + by rewrite lookup_insert_ne, Hother.
    + by rewrite lookup_insert_eq.
    + intros k Hk.
      rewrite lookup_insert_ne, Hother by (intros ?; subst k; apply Hk; set_solver).
      unfold f1. by rewrite !lookup_insert_ne by (intros ?; subst k; apply Hk; set_solver).
  - repeat split.
    + done.
    + rewrite Hother by done. unfold f1. by rewrite !lookup_insert_ne.
    + rewrite Hother by done. unfold f1. by rewrite !lookup_insert_ne.
    + rewrite Hother by done. unfold f1. by rewrite lookup_insert_eq.
    + by rewrite Hother.
    + rewrite Hother by done. unfold f1. by rewrite !lookup_insert_ne.
    + intros k Hk. rewrite Hother by (intros ?; subst k; apply Hk; set_solver).
      unfold f1. by rewrite !lookup_insert_ne by (intros ?; subst k; apply Hk; set_solver).
Qed.

(** *** Update: the row that is written *)




Hypothesis datetime_parses : ∀ s, z_datetime s = true → is_Some (Date_parse s).




(** *** Update: the route *)

Lemma write_fails_no_outage env k : outage env = None → write_fails env k = false.
Proof. unfold write_fails. intros ->. by apply bool_decide_eq_false_2. Qed.








(** An id that names no invoice is answered 404 with nothing written. *)
Lemma update_invoice_not_found env db req data :
  updateInvoiceSchema Date_parse z_datetime (body req) = Some data →
  invoice db !! params_id req = None →
  update_invoice Date_parse z_datetime env db req
  = (Json 404 (Failure "Faktur tidak ditemukan"), db).
Proof. intros Hp Hnone. unfold update_invoice. by rewrite Hp, Hnone. Qed.

(** The update route never reads who is calling. *)
Lemma update_invoice_any_caller env db req u :
  update_invoice Date_parse z_datetime env db
    {| user := u; params_id := params_id req; body := body req |}
  = update_invoice Date_parse z_datetime env db req.
Proof. reflexivity. Qed.


Lemma updated_row_inv env inv data row :
  updated_row Date_parse env inv data = Some row →
  column_status (prop data "status") (status inv) = Some (status row)
  ∧ column_DateTime_opt Date_parse (prop data "paidAt") (paidAt inv)
    = Some (paidAt row).
Proof.
  unfold updated_row. intros H.
  destruct (column_status _ _) as [st|]; [|done]. simpl in H.
  destruct (column_String_opt _ (paymentProof inv)) as [pp|]; [|done]. simpl in H.
  destruct (column_DateTime _ _ _) as [dd|]; [|done]. simpl in H.
  destruct (column_String_opt _ (notes inv)) as [nn|]; [|done]. simpl in H.
  destruct (column_DateTime_opt _ _ _) as [pa|]; [|done]. simpl in H.
  by simplify_eq.
Qed.



(** *** Sequences of calls *)



Lemma delete_invoice_db env db req :
  (delete_invoice env db req).2 = db
  ∨ (delete_invoice env db req).2
    = {| settings := settings db; customer := customer db;
         invoice := delete (params_id req) (invoice db) |}.
Proof.
  unfold delete_invoice, invoice_delete.
  destruct (invoice db !! params_id req) as [inv|]; [|by left].
  case_bool_decide; [|by left].
  destruct (write_fails env 0); [by left | by right].
Qed.




Lemma run_cons db c rest :
  run Date_parse z_datetime db (c :: rest)
  = ((run Date_parse z_datetime (handle Date_parse z_datetime db c).2 rest).1,
     from_option
       (λ a, a :: (run Date_parse z_datetime (handle Date_parse z_datetime db c).2 rest).2)
       (run Date_parse z_datetime (handle Date_parse z_datetime db c).2 rest).2
       (allocated Date_parse z_datetime db c)).
Proof. simpl. by destruct (run _ _ _ rest). Qed.





End Properties.

(** ** The theorems at sample requests *)



(** [create_number_and_counter] at the tenant of the scenario: prefix "INV",
    counter 7. *)
Lemma create_number_and_counter_sample :
  number (Sample.created "i1" "INV00007") = "INV00007"
  ∧ nextInvoiceNumber
      <$> (settings (create_invoice Sample.Date_parse (Sample.env "i1" None)
                       (Sample.db0 (Some "INV") 7)
                       (Sample.post "alice" (Sample.create_body Sample.two_items 10))).2
           !! "alice")
    = Some 8.
Proof.
  pose proof (create_number_and_counter Sample.Date_parse (Sample.env "i1" None)
                (Sample.db0 (Some "INV") 7)
                (Sample.post "alice" (Sample.create_body Sample.two_items 10))
                {| invoicePrefix := Some "INV"; nextInvoiceNumber := 7 |}
                (Sample.created "i1" "INV00007")
                (create_invoice Sample.Date_parse (Sample.env "i1" None)
                   (Sample.db0 (Some "INV") 7)
                   (Sample.post "alice" (Sample.create_body Sample.two_items 10))).2)
    as H.
  cbv zeta in H.
  destruct H as (_ & _ & _ & _ & H).
  - vm_compute. reflexivity.
  - vm_compute. reflexivity.
  - apply H; reflexivity.
Defined.

(** C2 as the specification states it fails for a prefix that is present
    but empty: the prefix followed by the padded counter would be "00007",
    the route gives "INV00007". *)
Lemma empty_prefix_gets_INV :
  let r := create_invoice Sample.Date_parse (Sample.env "i1" None)
             (Sample.db0 (Some EmptyString) 7)
             (Sample.post "alice" (Sample.create_body Sample.two_items 10)) in
  is_success r.1 = true
  ∧ number <$> invoice r.2 !! "i1" = Some "INV00007"
  ∧ "INV00007" ≠ EmptyString +:+ padStart 5 "0" (String_of_int 7).
Proof. vm_compute. by repeat split. Qed.





(** The same happens with the database up when the counter has reached the
    largest [Int]: the increment overflows after the insertion. *)
Lemma insert_without_increment_at_Int_max :
  let db := Sample.db0 (Some "INV") Int_max in
  let r := create_invoice Sample.Date_parse (Sample.env "i1" None) db
             (Sample.post "alice" (Sample.create_body Sample.two_items 10)) in
  r.1 = Next (Prisma ValueOutOfRange)
  ∧ number <$> invoice r.2 !! "i1" = Some "INV2147483647"
  ∧ nextInvoiceNumber <$> settings r.2 !! "alice" = Some Int_max.
Proof. vm_compute. by repeat split. Qed.









(** ** Reading, deleting and sending *)

Section MoreProperties.

Variable Date_parse : string → option Z.
Variable z_datetime : string → bool.

Lemma invoice_find_owned_Some db i u inv :
  invoice_find_owned db i u = Some inv
  ↔ invoice db !! i = Some inv ∧ userId inv = u.
Proof.
  unfold invoice_find_owned. destruct (invoice db !! i) as [row|].
  - case_bool_decide as Hown; split.
    + by intros [= <-].
    + by intros [[= <-] _].
    + done.
    + intros [[= <-] ?]. done.
  - split; [done | by intros [? _]].
Qed.


Lemma elem_of_tenant_rows db u inv :
  inv ∈ tenant_rows db u ↔ ∃ i, invoice db !! i = Some inv ∧ userId inv = u.
Proof.
  unfold tenant_rows. rewrite list_elem_of_filter, list_elem_of_fmap. split.
  - intros [Hu ([i row] & -> & Hin)]. apply elem_of_map_to_list in Hin. eauto.
  - intros (i & Hi & Hu). split; [done|]. exists (i, inv). split; [done|].
    by apply elem_of_map_to_list.
Qed.

(** X2. The list route answers with the invoices of the caller and no
    others, each stored row once, the newest first. *)
Theorem list_invoices_own_newest_first db req :
  StronglySorted newer (list_invoices db req)
  ∧ (∀ inv, inv ∈ list_invoices db req
            ↔ ∃ i, invoice db !! i = Some inv ∧ userId inv = user req)
  ∧ length (list_invoices db req) = invoice_count db (user req)
  ∧ list_invoices db req ≡ₚ tenant_rows db (user req).
Proof.
  unfold list_invoices, invoice_findMany, invoice_count.
  split; [apply StronglySorted_merge_sort; apply _|].
  split; [|split].
  - intros inv. rewrite merge_sort_Permutation. apply elem_of_tenant_rows.
  - by rewrite merge_sort_Permutation.
  - apply merge_sort_Permutation.
Qed.

(** X3. A delete call removes at most the invoice it names, and that only
    when the caller owns it: the settings (the counter with them) and the
    customers stay as they were, every invoice with another id or another
    owner stays as it was, and no invoice is added or changed. *)
Theorem delete_frame env db req :
  let db' := (delete_invoice env db req).2 in
  settings db' = settings db
  ∧ customer db' = customer db
  ∧ (∀ j inv, invoice db !! j = Some inv →
              j ≠ params_id req ∨ userId inv ≠ user req →
              invoice db' !! j = Some inv)
  ∧ (∀ j inv, invoice db' !! j = Some inv → invoice db !! j = Some inv).
Proof.
  unfold delete_invoice, invoice_delete.
  destruct (invoice db !! params_id req) as [row|] eqn:Hrow; simpl; [|done].
  case_bool_decide as Hown; simpl; [|done].
  destruct (write_fails env 0); simpl; [done|].
  repeat split.
  - intros j inv Hj [Hne|Hne].
    + by rewrite lookup_delete_ne.
    + destruct (decide (j = params_id req)) as [->|?];
        [congruence | by rewrite lookup_delete_ne].
  - intros j inv Hj. by apply lookup_delete_Some in Hj as [_ ?].
Qed.


(** X5. The send route hands an invoice to the mailer at most once, and
    only an invoice that has the id of the request, belongs to the caller
    and is not CANCELLED; it answers 200 exactly when the mailer returned,
    401 when the caller has no id and 500 in every other case. *)
Theorem send_invoice_own_only sendInvoiceEmail db req :
  let answer := (send_invoice sendInvoiceEmail db req).1 in
  let mailed := (send_invoice sendInvoiceEmail db req).2 in
  (∀ inv, inv ∈ mailed →
          invoice db !! params_id req = Some inv ∧ userId inv = user req
          ∧ status inv ≠ CANCELLED ∧ user req ≠ EmptyString)
  ∧ (length mailed ≤ 1)%nat
  ∧ (answer.1 = 200 ↔ ∃ inv, mailed = [inv] ∧ sendInvoiceEmail inv = Delivered)
  ∧ (answer.1 = 401 ↔ user req = EmptyString)
  ∧ (answer.1 = 200 ∨ answer.1 = 401 ∨ answer.1 = 500).
Proof.
  unfold send_invoice.
  case_bool_decide as Huser; simpl.
  { split; [intros inv0 Hin; by apply elem_of_nil in Hin|].
    split; [lia|]. split; [split; [done | by intros (? & ? & _)]|].
    split; [done | auto]. }
  destruct (invoice_find_owned db (params_id req) (user req)) as [inv|] eqn:Hfind;
    simpl.
  2:{ split; [intros inv0 Hin; by apply elem_of_nil in Hin|].
      split; [lia|]. split; [split; [done | by intros (? & ? & _)]|].
      split; [done | auto]. }
  apply invoice_find_owned_Some in Hfind as [Hinv Hown].
  case_bool_decide as Hst; simpl.
  { split; [intros inv0 Hin; by apply elem_of_nil in Hin|].
    split; [lia|]. split; [split; [done | by intros (? & ? & _)]|].
    split; [done | auto]. }
  assert (∀ inv0, inv0 ∈ [inv] →
                  invoice db !! params_id req = Some inv0 ∧ userId inv0 = user req
                  ∧ status inv0 ≠ CANCELLED ∧ user req ≠ EmptyString) as Hmail.
  { intros inv0 Hin. apply list_elem_of_singleton in Hin as ->. done. }
  destruct (sendInvoiceEmail inv) eqn:Hsent; simpl;
    (split; [exact Hmail|]); (split; [lia|]).
  - split; [split; [eauto | done]|]. split; [done | auto].
  - split; [split; [done | intros (inv0 & [= <-] & Hd); congruence]|].
    split; [done | auto].
  - split; [split; [done | intros (inv0 & [= <-] & Hd); congruence]|].
    split; [done | auto].
Qed.


(** ** What an update cannot touch *)

Lemma updated_row_frame env inv data row :
  updated_row Date_parse env inv data = Some row →
  id row = id inv ∧ number row = number inv ∧ date row = date inv
  ∧ subtotal row = subtotal inv ∧ tax row = tax inv ∧ total row = total inv
  ∧ items row = items inv ∧ userId row = userId inv
  ∧ customerId row = customerId inv ∧ createdAt row = createdAt inv.
Proof.
  unfold updated_row. intros H.
  destruct (column_status _ _) as [st|]; [|done]. simpl in H.
  destruct (column_String_opt _ (paymentProof inv)) as [pp|]; [|done]. simpl in H.
  destruct (column_DateTime _ _ _) as [dd|]; [|done]. simpl in H.
  destruct (column_String_opt _ (notes inv)) as [nn|]; [|done]. simpl in H.
  destruct (column_DateTime_opt _ _ _) as [pa|]; [|done]. simpl in H.
  by simplify_eq.
Qed.

(** The update route writes nothing, or it passes both guards and rewrites
    the one row it was asked for. *)
Lemma update_invoice_row env db req :
  (update_invoice Date_parse z_datetime env db req).2 = db
  ∨ ∃ inv data row,
      invoice db !! params_id req = Some inv
      ∧ updateInvoiceSchema Date_parse z_datetime (body req) = Some data
      ∧ status inv ≠ CANCELLED
      ∧ (status inv = PAID → prop data "status" = Str "CANCELLED")
      ∧ updated_row Date_parse env inv (finalUpdateData inv env data) = Some row
      ∧ (update_invoice Date_parse z_datetime env db req).2
        = {| settings := settings db; customer := customer db;
             invoice := <[params_id req := row]> (invoice db) |}.
Proof.
  unfold update_invoice.
  destruct (updateInvoiceSchema _ _ _) as [data|]; [|by left].
  destruct (invoice db !! params_id req) as [inv|] eqn:Hinv; [|by left].
  destruct (bool_decide (status inv = PAID)
            && negb (strict_eq (prop data "status") (Str "CANCELLED"))) eqn:Hpaid;
    [by left|].
  destruct (bool_decide (status inv = CANCELLED)) eqn:Hcanc; [by left|].
  apply bool_decide_eq_false_1 in Hcanc.
  unfold invoice_update.
  destruct (bool_decide (dom (finalUpdateData inv env data) ⊆ update_columns));
    [|by left].
  rewrite Hinv.
  destruct (updated_row _ _ _ _) as [row|] eqn:Hrow; [|by left].
  destruct (write_fails env 0); [by left|].
  right. exists inv, data, row. repeat split; try done.
  intros Hst. rewrite bool_decide_eq_true_2 in Hpaid by done. simpl in Hpaid.
  apply negb_false_iff in Hpaid. by apply bool_decide_eq_true_1 in Hpaid.
Qed.

(** X7. An update call writes at most the row it names, and of that row
    only the status, notes, payment proof, due date, paid time and update
    time: the settings, the customers and every other invoice stay as they
    were, no invoice is added or removed, and the id, number, date,
    subtotal, tax, total, items, owner, customer and creation time of the
    row are kept. *)
Theorem update_frame env db req :
  let db' := (update_invoice Date_parse z_datetime env db req).2 in
  settings db' = settings db
  ∧ customer db' = customer db
  ∧ (∀ j, j ≠ params_id req → invoice db' !! j = invoice db !! j)
  ∧ (invoice db !! params_id req = None → invoice db' !! params_id req = None)
  ∧ (∀ inv, invoice db !! params_id req = Some inv →
            ∃ inv',
              invoice db' !! params_id req = Some inv'
              ∧ id inv' = id inv ∧ number inv' = number inv ∧ date inv' = date inv
              ∧ subtotal inv' = subtotal inv ∧ tax inv' = tax inv
              ∧ total inv' = total inv ∧ items inv' = items inv
              ∧ userId inv' = userId inv ∧ customerId inv' = customerId inv
              ∧ createdAt inv' = createdAt inv).
Proof.
  destruct (update_invoice_row env db req)
    as [->|(inv & data & row & Hinv & _ & _ & _ & Hrow & ->)]; simpl.
  - repeat split; try done. intros inv Hinv. exists inv. by repeat split.
  - apply updated_row_frame in Hrow. repeat split; try done.
    + intros j Hj. by rewrite lookup_insert_ne.
    + by rewrite Hinv.
    + intros inv0 Hinv0. rewrite Hinv in Hinv0. simplify_eq.
      exists row. by rewrite lookup_insert_eq.
Qed.

Lemma z_key_insert_other k k' v schema o out :
  k ≠ k' → z_key k' schema (<[k := v]> o) out = z_key k' schema o out.
Proof. intros Hne. unfold z_key. by rewrite lookup_insert_ne. Qed.

(** X8. A key of the body that the update schema does not name changes
    nothing: the call goes exactly as it would without the key. So no body
    can reach a column beyond those of X7 -- the number or the total, say --
    through this route. *)
Theorem update_ignores_unknown_keys env db req o k v :
  body req = JObj o →
  k ∉ ["status"; "paymentProof"; "paymentNote"; "dueDate"; "notes"; "paidAt"] →
  update_invoice Date_parse z_datetime env db
    {| user := user req; params_id := params_id req; body := JObj (<[k := v]> o) |}
  = update_invoice Date_parse z_datetime env db req.
Proof.
  intros Hbody Hk.
  assert (updateInvoiceSchema Date_parse z_datetime (JObj (<[k := v]> o))
          = updateInvoiceSchema Date_parse z_datetime (JObj o)) as Hsame.
  { unfold updateInvoiceSchema.
    do 5 (rewrite z_key_insert_other by (intros ->; apply Hk; set_solver);
          destruct (z_key _ _ o _) as [?|]; simpl; [|done]).
    by rewrite z_key_insert_other by (intros ->; apply Hk; set_solver). }
  unfold update_invoice. cbn [body params_id user]. by rewrite Hbody, Hsame.
Qed.

(** X9. A key of the body that the create schema does not name changes
    nothing either: status, number, owner and the three amounts of a new
    invoice cannot be given by the caller. *)
Theorem create_ignores_unknown_keys env db req o k v :
  body req = JObj o →
  k ∉ ["customerId"; "date"; "dueDate"; "items"; "notes"; "taxRate"] →
  create_invoice Date_parse env db
    {| user := user req; params_id := params_id req; body := JObj (<[k := v]> o) |}
  = create_invoice Date_parse env db req.
Proof.
  intros Hbody Hk.
  assert (createInvoiceSchema (JObj (<[k := v]> o)) = createInvoiceSchema (JObj o))
    as Hsame.
  { unfold createInvoiceSchema.
    by rewrite !lookup_insert_ne by (intros ->; apply Hk; set_solver). }
  unfold create_invoice. cbn [body params_id user]. by rewrite Hbody, Hsame.
Qed.

(** ** The life of an invoice under sequences of calls *)

(** What one call does to the row stored under [i], when it does not draw
    [i] as the id of a new invoice: nothing, or it deletes the row, or it
    is an update that passed the guards. *)
Lemma handle_row db c i :
  (route c = POST → uuid (call_env c) ≠ i) →
  invoice (handle Date_parse z_datetime db c).2 !! i = invoice db !! i
  ∨ (is_Some (invoice db !! i)
     ∧ invoice (handle Date_parse z_datetime db c).2 !! i = None)
  ∨ ∃ inv row,
      invoice db !! i = Some inv
      ∧ invoice (handle Date_parse z_datetime db c).2 !! i = Some row
      ∧ status inv ≠ CANCELLED
      ∧ (status inv = PAID → status row = CANCELLED).
Proof.
  intros Hfresh. unfold handle. destruct (route c) eqn:Hroute.
  - left.
    destruct (create_invoice Date_parse (call_env c) db (call_req c))
      as [out db'] eqn:Hrun.
    apply create_invoice_cases in Hrun
      as [[-> _]|(data & st & d & due & rows & row & _ & _ & _ & _ & _ & _ & _ & _
                  & _ & _ & Hinvs & _)]; simpl; [done|].
    rewrite Hinvs. apply lookup_insert_ne. by apply Hfresh.
  - destruct (update_invoice_row (call_env c) db (call_req c))
      as [->|(inv & data & row & Hinv & _ & Hcanc & Hpaid & Hrow & ->)];
      [by left|]. simpl.
    destruct (decide (params_id (call_req c) = i)) as [<-|Hne].
    + right; right. exists inv, row. rewrite lookup_insert_eq.
      repeat split; try done. intros Hst.
      apply updated_row_inv in Hrow as [Hcol _].
      destruct (finalUpdateData_lookup inv (call_env c) data) as (_ & Fst & _).
      unfold prop in Hcol, Hpaid. rewrite Fst in Hcol.
      rewrite (Hpaid Hst) in Hcol. vm_compute in Hcol. by simplify_eq.
    + left. by rewrite lookup_insert_ne.
  - destruct (delete_invoice_db (call_env c) db (call_req c)) as [->| ->];
      [by left|]. simpl.
    destruct (decide (params_id (call_req c) = i)) as [<-|Hne].
    + destruct (invoice db !! params_id (call_req c)) as [inv|] eqn:Hinv.
      * right; left. split; [eauto|]. by rewrite lookup_delete_eq.
      * left. by rewrite lookup_delete_eq.
    + left. by rewrite lookup_delete_ne.
Qed.

(** X10. CANCELLED is final: along any sequence of create, update and
    delete calls, none of which draws its id for a new invoice, a CANCELLED
    invoice stays exactly the row it was until it is deleted, and once
    deleted it stays away. *)
Theorem cancelled_is_final db calls i inv :
  invoice db !! i = Some inv →
  status inv = CANCELLED →
  Forall (λ c, route c = POST → uuid (call_env c) ≠ i) calls →
  invoice (run Date_parse z_datetime db calls).1 !! i = Some inv
  ∨ invoice (run Date_parse z_datetime db calls).1 !! i = None.
Proof.
  intros Hinv Hst Hfresh.
  assert (invoice db !! i = Some inv ∨ invoice db !! i = None) as Hnow by auto.
  clear Hinv. revert db Hnow.
  induction Hfresh as [|c rest Hc _ IH]; intros db Hnow; [done|].
  rewrite run_cons. simpl. apply IH.
  destruct (handle_row db c i Hc)
    as [->|[[_ ->]|(inv0 & row & Hinv0 & _ & Hnc & _)]]; auto.
  destruct Hnow as [Hnow|Hnow]; rewrite Hnow in Hinv0; by simplify_eq.
Qed.

(** X11. A PAID invoice can only be cancelled or deleted: along any such
    sequence of calls its row is at the end the row it was, or a CANCELLED
    one, or gone. *)
Theorem paid_only_cancelled_or_deleted db calls i inv :
  invoice db !! i = Some inv →
  status inv = PAID →
  Forall (λ c, route c = POST → uuid (call_env c) ≠ i) calls →
  invoice (run Date_parse z_datetime db calls).1 !! i = Some inv
  ∨ (∃ inv', invoice (run Date_parse z_datetime db calls).1 !! i = Some inv'
             ∧ status inv' = CANCELLED)
  ∨ invoice (run Date_parse z_datetime db calls).1 !! i = None.
Proof.
  intros Hinv Hst Hfresh.
  assert (invoice db !! i = Some inv
          ∨ (∃ inv', invoice db !! i = Some inv' ∧ status inv' = CANCELLED)
          ∨ invoice db !! i = None) as Hnow by auto.
  clear Hinv. revert db Hnow.
  induction Hfresh as [|c rest Hc _ IH]; intros db Hnow; [done|].
  rewrite run_cons. simpl. apply IH.
  destruct (handle_row db c i Hc)
    as [->|[[_ ->]|(inv0 & row & Hinv0 & -> & Hnc & Hpaid)]]; auto.
  destruct Hnow as [Hnow|[(inv' & Hnow & Hc')|Hnow]];
    rewrite Hnow in Hinv0; simplify_eq.
  right; left. exists row. auto.
Qed.

(** ** More on create *)

Lemma invoice_create_taken env k db data :
  number_taken db (Create.userId data) (Create.number data) = true →
  ∃ e, invoice_create env k db data = inl e.
Proof.
  intros Htaken. unfold invoice_create. rewrite Htaken.
  repeat case_match; eauto.
Qed.

(** X12. When the number made of the caller's prefix and counter is already
    on one of the caller's invoices, every create call of the caller fails
    and writes nothing, whatever its body: the counter is not advanced past
    the number that is taken. *)
Theorem create_blocked_by_taken_number env db req st :
  settings db !! user req = Some st →
  number_taken db (user req) (invoice_number st) = true →
  (create_invoice Date_parse env db req).2 = db
  ∧ is_success (create_invoice Date_parse env db req).1 = false.
Proof.
  intros Hst Htaken. unfold create_invoice.
  destruct (createInvoiceSchema (body req)) as [data|]; [|done].
  rewrite Hst.
  edestruct (invoice_create_taken env 0 db) as [e ->]; [|done].
  done.
Qed.

(** X13. A create call that inserted its invoice and then failed leaves the
    tenant blocked: on the state it leaves, every further create call of the
    same tenant fails and writes nothing. *)
Theorem failed_increment_blocks_tenant env db req env' req' :
  (create_invoice Date_parse env db req).2 ≠ db →
  is_success (create_invoice Date_parse env db req).1 = false →
  user req' = user req →
  (create_invoice Date_parse env' (create_invoice Date_parse env db req).2 req').2
  = (create_invoice Date_parse env db req).2
  ∧ is_success
      (create_invoice Date_parse env' (create_invoice Date_parse env db req).2 req').1
    = false.
Proof.
  destruct (create_invoice Date_parse env db req) as [out db1] eqn:Hrun. simpl.
  intros Hchanged Hfail Huser.
  apply create_invoice_cases in Hrun
    as [[? _]|(data & st & d & due & rows & row & _ & Hst & _ & _ & _ & Hrow & _ & _
               & _ & _ & Hinvs & _ & [(Hset & _ & _)|(_ & -> & _)])]; try done.
  unfold create_invoice.
  destruct (createInvoiceSchema (body req')) as [data'|]; [|done].
  rewrite Huser, Hset, Hst.
  edestruct (invoice_create_taken env' 0 db1) as [e ->]; [|done].
  unfold number_taken. apply bool_decide_eq_true_2.
  exists (uuid env), row. rewrite Hinvs, lookup_insert_eq.
  split; [done|]. by rewrite Hrow.
Qed.

(** X14. The invoice a successful create call answers with is stored under
    the id drawn for it, belongs to the caller, is UNPAID with neither paid
    time nor payment proof, carries the time of the request as creation and
    update time, and takes customer, notes and the two dates from the
    body. *)
Theorem create_defaults env db req inv db' :
  create_invoice Date_parse env db req = (Json 200 (Data (Some inv)), db') →
  invoice db' !! uuid env = Some inv
  ∧ id inv = uuid env ∧ userId inv = user req
  ∧ status inv = UNPAID ∧ paidAt inv = None ∧ paymentProof inv = None
  ∧ createdAt inv = now env ∧ updatedAt inv = now env
  ∧ ∃ data,
      createInvoiceSchema (body req) = Some data
      ∧ customerId inv = Input.customerId data
      ∧ notes inv = Input.notes data
      ∧ Date_parse (Input.date data) = Some (date inv)
      ∧ Date_parse (Input.dueDate data) = Some (dueDate inv)
      ∧ length (items inv) = length (Input.items data).
Proof.
  intros Hrun.
  apply create_invoice_cases in Hrun
    as [[_ ?]|(data & st & d & due & rows & row & Hp & _ & Hd & Hdue & Hrows & Hrow
               & _ & _ & _ & _ & Hinvs & _ & [(_ & ? & _)|(_ & Hout & _)])];
    try done.
  assert (inv = row) as -> by (by simplify_eq).
  rewrite Hinvs, lookup_insert_eq. rewrite Hrow. simpl.
  repeat (split; [done|]). exists data. repeat (split; [done|]).
  apply length_mapM in Hrows. by rewrite length_fmap in Hrows.
Qed.



End MoreProperties.

(** ** Padding, the upload filter and the statistics *)

Lemma substring_0_length (k : nat) (t : string) :
  (k ≤ String.length t)%nat → String.length (String.substring 0 k t) = k.
Proof.
  revert k. induction t as [|c t IH]; intros [|k] Hk; simpl in *; try done; try lia.
  rewrite IH; [done | lia].
Qed.

Lemma string_app_length (s t : string) :
  String.length (s +:+ t) = (String.length s + String.length t)%nat.
Proof.
  induction s as [|c s IH]; [done|]. rewrite string_app_cons. simpl. by rewrite IH.
Qed.

Lemma string_repeat_length (k : nat) (pad : string) :
  pad ≠ EmptyString → (k ≤ String.length (string_repeat k pad))%nat.
Proof.
  intros Hpad. induction k as [|k IH]; simpl; [lia|].
  rewrite string_app_length. destruct pad; [done|]. simpl. lia.
Qed.

Lemma padStart_spec (n : nat) (pad s : string) :
  (∃ fill, padStart n pad s = fill +:+ s)
  ∧ (pad = EmptyString → padStart n pad s = s)
  ∧ (pad ≠ EmptyString →
     String.length (padStart n pad s) = (n `max` String.length s)%nat).
Proof.
  unfold padStart.
  destruct (Nat.leb_spec n (String.length s)) as [Hle|Hlt]; simpl.
  { split; [by exists EmptyString|]. split; [done|]. intros _. lia. }
  split; [|split].
  - destruct (String.length pad =? 0)%nat; [by exists EmptyString | by eexists].
  - by intros ->.
  - intros Hpad. destruct (Nat.eqb_spec (String.length pad) 0) as [Hz|_].
    { by destruct pad. }
    rewrite string_app_length, substring_0_length.
    + lia.
    + by apply string_repeat_length.
Qed.

(** X16. An invoice number is never cut: it is the caller's prefix, "INV"
    when there is none or an empty one, then a filling, then all the
    decimal digits of the counter, and filling and digits together have 5
    characters or, for a counter beyond 99999, as many as the digits. *)
Theorem invoice_number_keeps_digits (st : Settings) :
  ∃ fill,
    invoice_number st
    = or_default (invoicePrefix st) "INV"
      +:+ (fill +:+ String_of_int (nextInvoiceNumber st))
    ∧ String.length (fill +:+ String_of_int (nextInvoiceNumber st))
      = (5 `max` String.length (String_of_int (nextInvoiceNumber st)))%nat.
Proof.
  unfold invoice_number. cbv zeta.
  destruct (padStart_spec 5 "0" (String_of_int (nextInvoiceNumber st)))
    as ((fill & Hfill) & _ & Hlen).
  exists fill. rewrite <- Hfill. split; [done|]. by apply Hlen.
Qed.

Lemma prefix_empty (s : string) : String.prefix EmptyString s = true.
Proof. by destruct s. Qed.

Lemma prefix_cons (c c' : ascii) (p s : string) :
  String.prefix (String c p) (String c' s)
  = if Ascii.ascii_dec c c' then String.prefix p s else false.
Proof. reflexivity. Qed.

Lemma prefix_app (p s : string) :
  String.prefix p s = true ↔ ∃ r, s = p +:+ r.
Proof.
  revert s. induction p as [|c p IH]; intros s.
  - rewrite prefix_empty. split; [intros _; by exists s | done].
  - destruct s as [|c' s].
    { split; [done|]. intros [r Hr]. by rewrite string_app_cons in Hr. }
    rewrite prefix_cons. destruct (Ascii.ascii_dec c c') as [->|Hne].
    + rewrite IH. split; intros [r Hr]; exists r.
      * by rewrite string_app_cons, Hr.
      * rewrite string_app_cons in Hr. by simplify_eq.
    + split; [done|]. intros [r Hr]. rewrite string_app_cons in Hr. congruence.
Qed.

Lemma includes_spec (needle hay : string) :
  includes needle hay = true ↔ ∃ a b, hay = a +:+ (needle +:+ b).
Proof.
  induction hay as [|c hay IH].
  - change (includes needle EmptyString)
      with (String.prefix needle EmptyString || false).
    rewrite orb_false_r, prefix_app. split.
    + intros [r Hr]. by exists EmptyString, r.
    + intros (a & b & Hab). destruct a; [by exists b|].
      by rewrite string_app_cons in Hab.
  - change (includes needle (String c hay))
      with (String.prefix needle (String c hay) || includes needle hay).
    rewrite orb_true_iff, prefix_app, IH. split.
    + intros [[r Hr]|(a & b & Hab)].
      * by exists EmptyString, r.
      * exists (String c a), b. by rewrite string_app_cons, Hab.
    + intros (a & b & Hab). destruct a as [|c' a].
      * left. by exists b.
      * right. rewrite string_app_cons in Hab. simplify_eq. by exists a, b.
Qed.

(** X17. The upload filter looks for the words jpeg, jpg and png anywhere in
    the declared type of the file: a file is accepted exactly when its type
    has one of them as a part, whatever stands before and after it, and is
    refused with the message of the filter otherwise. *)
Theorem fileFilter_accepts (mimetype : string) :
  (fileFilter mimetype = Accept
   ↔ ∃ a word b,
       word ∈ ["jpeg"; "jpg"; "png"] ∧ mimetype = a +:+ (word +:+ b))
  ∧ (fileFilter mimetype = Accept
     ∨ fileFilter mimetype
       = Reject "Hanya file gambar yang diperbolehkan (JPG, JPEG, PNG)").
Proof.
  unfold fileFilter, allowedTypes_test. split.
  - destruct (includes "jpeg" mimetype) eqn:H1; simpl.
    { apply includes_spec in H1 as (a & b & ->). split; [|done]. intros _.
      exists a, "jpeg", b. split; [set_solver | done]. }
    destruct (includes "jpg" mimetype) eqn:H2; simpl.
    { apply includes_spec in H2 as (a & b & ->). split; [|done]. intros _.
      exists a, "jpg", b. split; [set_solver | done]. }
    destruct (includes "png" mimetype) eqn:H3; simpl.
    { apply includes_spec in H3 as (a & b & ->). split; [|done]. intros _.
      exists a, "png", b. split; [set_solver | done]. }
    split; [done|]. intros (a & word & b & Hin & ->). exfalso.
    assert (includes word (a +:+ (word +:+ b)) = true) as Hyes
      by (apply includes_spec; eauto).
    repeat (apply elem_of_cons in Hin as [->|Hin]; [congruence|]).
    by apply elem_of_nil in Hin.
  - destruct (_ || _); auto.
Qed.

Lemma status_counts_add_up (rows : list Invoice) :
  (length (filter (λ inv, status inv = UNPAID) rows)
   + length (filter (λ inv, status inv = PAID) rows)
   + length (filter (λ inv, status inv = OVERDUE) rows)
   + length (filter (λ inv, status inv = CANCELLED) rows))%nat
  = length rows.
Proof.
  induction rows as [|inv rows IH]; [done|].
  rewrite !filter_cons. destruct (status inv) eqn:Hst;
    repeat case_decide; simplify_eq; simpl; lia.
Qed.

Lemma sum_list_nonzero (l : list (InvoiceStatus * nat)) :
  sum_list (filter (λ g, g.2 ≠ 0%nat) l).*2 = sum_list l.*2.
Proof.
  induction l as [|[st n] l IH]; [done|].
  rewrite filter_cons. case_decide as Hn; simpl in Hn.
  - rewrite !fmap_cons. simpl. f_equal. exact IH.
  - assert (n = 0%nat) as -> by lia. rewrite fmap_cons. simpl. exact IH.
Qed.

(** X18. The status distribution of the dashboard adds up: its values sum
    to the number of invoices of the tenant, no entry has the value 0, and
    the names come without repetition in the order UNPAID, PAID, OVERDUE,
    CANCELLED. *)
Theorem statusDistribution_adds_up (db : Db) (u : string) :
  sum_list (statusDistribution db u).*2 = invoice_count db u
  ∧ Forall (λ entry, (0 < entry.2)%nat) (statusDistribution db u)
  ∧ (statusDistribution db u).*1 `sublist_of` ["UNPAID"; "PAID"; "OVERDUE"; "CANCELLED"].
Proof.
  unfold statusDistribution, invoice_groupBy_status, invoice_count.
  set (rows := tenant_rows db u).
  set (groups := (λ st, (st, length (filter (λ inv, status inv = st) rows)))
                   <$> [UNPAID; PAID; OVERDUE; CANCELLED]).
  split; [|split].
  - rewrite <- list_fmap_compose.
    change (snd ∘ (λ g : InvoiceStatus * nat, (InvoiceStatus_name g.1, g.2)))
      with (snd : InvoiceStatus * nat → nat).
    rewrite sum_list_nonzero. unfold groups. simpl.
    pose proof (status_counts_add_up rows). lia.
  - apply Forall_fmap, Forall_forall. intros g Hg.
    apply list_elem_of_filter in Hg as [Hg _]. simpl in *. lia.
  - rewrite <- list_fmap_compose.
    change (["UNPAID"; "PAID"; "OVERDUE"; "CANCELLED"])
      with ((fst ∘ (λ g : InvoiceStatus * nat, (InvoiceStatus_name g.1, g.2)))
              <$> groups).
    apply fmap_sublist, sublist_filter.
Qed.

Section DailyRevenue.

Variable startOfDay : Z → Z.

Lemma add_to_day_days d t acc :
  (add_to_day d t acc).*1
  = if bool_decide (d ∈ acc.*1) then acc.*1 else ((acc.*1) ++ [d])%list.
Proof.
  induction acc as [|[d0 t0] acc IH].
  - by rewrite bool_decide_eq_false_2 by apply not_elem_of_nil.
  - cbn [add_to_day fst snd]. rewrite fmap_cons. cbn [fst].
    destruct (decide (d0 = d)) as [->|Hne].
    + rewrite !bool_decide_eq_true_2; [done | by left | done].
    + rewrite (bool_decide_eq_false_2 (d0 = d)) by done.
      rewrite fmap_cons, IH. cbn [fst].
      destruct (decide (d ∈ acc.*1)) as [Hin|Hnot].
      * rewrite !bool_decide_eq_true_2; [done | by right | done].
      * rewrite !bool_decide_eq_false_2; [done | | done].
        apply not_elem_of_cons. split; [congruence | done].
Qed.

Lemma add_to_day_elem d t acc d' t' :
  NoDup acc.*1 →
  (d', t') ∈ add_to_day d t acc
  ↔ (d' ≠ d ∧ (d', t') ∈ acc)
    ∨ (d' = d ∧ (((d ∉ acc.*1) ∧ t' = t)
                 ∨ ∃ t0, (d, t0) ∈ acc ∧ t' = (t0 + t)%float)).
Proof.
  induction acc as [|[d0 t0] acc IH]; intros Hnd.
  - cbn [add_to_day]. rewrite list_elem_of_singleton. split.
    + intros [= -> ->]. right. split; [done|]. left. split; [|done].
      apply not_elem_of_nil.
    + intros [[_ Hin]|[-> [[_ ->]|(t0 & Hin & _)]]].
      * by apply elem_of_nil in Hin.
      * done.
      * by apply elem_of_nil in Hin.
  - rewrite fmap_cons in Hnd. cbn [fst] in Hnd.
    apply NoDup_cons in Hnd as [Hfresh Hnd]. specialize (IH Hnd).
    assert (∀ x, (d0, x) ∉ acc) as Hfresh'.
    { intros x Hx. apply Hfresh. apply list_elem_of_fmap. by exists (d0, x). }
    cbn [add_to_day fst snd]. rewrite fmap_cons. cbn [fst].
    destruct (decide (d0 = d)) as [->|Hne].
    + rewrite bool_decide_eq_true_2 by done. rewrite !elem_of_cons. split.
      * intros [Hhead|Hin].
        -- injection Hhead as -> ->. right. split; [done|]. right.
           exists t0. split; [by left | done].
        -- left. split; [|by right]. intros ->. by apply (Hfresh' t').
      * intros [[Hne [Hhead|Hin]]|[-> [[Hnot _]|(t1 & Hin & ->)]]].
        -- injection Hhead as -> ->. done.
        -- by right.
        -- exfalso. apply Hnot. by left.
        -- apply elem_of_cons in Hin as [Hhead|Hin].
           ++ injection Hhead as ->. by left.
           ++ exfalso. by apply (Hfresh' t1).
    + rewrite bool_decide_eq_false_2 by done. rewrite !elem_of_cons, IH. split.
      * intros [Hhead|[[Hne' Hin]|[-> [[Hnot ->]|(t1 & Hin & ->)]]]].
        -- injection Hhead as -> ->. left. split; [done | by left].
        -- left. split; [done | by right].
        -- right. split; [done|]. left. split; [|done].
           intros [?|?]; [congruence | done].
        -- right. split; [done|]. right. exists t1. split; [by right | done].
      * intros [[Hne' [Hhead|Hin]]|[-> [[Hnot ->]|(t1 & Hin & ->)]]].
        -- by left.
        -- right. left. by split.
        -- right. right. split; [done|]. left. split; [|done].
           intros Hin. apply Hnot. by right.
        -- apply elem_of_cons in Hin as [Hhead|Hin].
           ++ injection Hhead as -> ->. done.
           ++ right. right. split; [done|]. right. by exists t1.
Qed.

Lemma add_to_day_NoDup d t acc : NoDup acc.*1 → NoDup (add_to_day d t acc).*1.
Proof.
  intros Hnd. rewrite add_to_day_days. case_bool_decide as Hd; [done|].
  apply NoDup_app. split; [done|]. split; [|apply NoDup_singleton].
  intros x Hx Hin. apply list_elem_of_singleton in Hin as ->. done.
Qed.

Lemma day_total_snoc d rows r :
  day_total startOfDay d (rows ++ [r])%list
  = if bool_decide (startOfDay r.1 = d)
    then Some (match day_total startOfDay d rows with
               | Some t0 => (t0 + r.2)%float
               | None => r.2
               end)
    else day_total startOfDay d rows.
Proof.
  unfold day_total. rewrite filter_app, fmap_app, filter_cons, filter_nil.
  case_decide as Hd.
  - rewrite bool_decide_eq_true_2 by done. simpl.
    destruct ((filter _ rows).*2) as [|first others]; simpl; [done|].
    by rewrite fold_left_app.
  - rewrite bool_decide_eq_false_2 by done. simpl. by rewrite app_nil_r.
Qed.

(** X19. The grouping of the daily revenue has one entry for each day that
    has a row and no other: the days come without repetition, and the total
    of a day is its rows' totals added one after the other, in the order of
    the rows, in the arithmetic of JavaScript numbers. *)
Theorem dailyRevenueGrouped_by_day (dailyRevenue : list (Z * float)) :
  NoDup (dailyRevenueGrouped startOfDay dailyRevenue).*1
  ∧ ∀ d t, (d, t) ∈ dailyRevenueGrouped startOfDay dailyRevenue
           ↔ day_total startOfDay d dailyRevenue = Some t.
Proof.
  unfold dailyRevenueGrouped.
  induction dailyRevenue as [|r rows [Hnd Hin]] using rev_ind.
  { split; [constructor|]. intros d t. simpl. split; [|done].
    intros H. by apply elem_of_nil in H. }
  rewrite fold_left_app. simpl. split; [by apply add_to_day_NoDup|].
  intros d t. rewrite add_to_day_elem by done. rewrite day_total_snoc.
  case_bool_decide as Hd.
  - split.
    + intros [[Hne _]|[-> [[Hnot ->]|(t0 & Ht0 & ->)]]]; [congruence|..].
      * destruct (day_total startOfDay (startOfDay r.1) rows) as [t0|] eqn:Ht0;
          [|done].
        exfalso. apply Hnot. apply Hin in Ht0.
        apply list_elem_of_fmap. by exists (startOfDay r.1, t0).
      * apply Hin in Ht0. by rewrite Ht0.
    + intros [= <-]. right. split; [done|].
      destruct (day_total startOfDay d rows) as [t0|] eqn:Ht0.
      * right. exists t0. split; [|done]. apply Hin. by rewrite Hd.
      * left. split; [|done]. intros Hmem.
        apply list_elem_of_fmap in Hmem as ([d' t0] & Hdd & Hmem). simpl in Hdd.
        subst d'. apply Hin in Hmem. rewrite Hd in Hmem. congruence.
  - rewrite <- Hin. split.
    + intros [[_ ?]|[-> _]]; [done | congruence].
    + intros Hmem. left. split; [|done]. intros ->.
      apply Hin in Hmem. unfold day_total in Hmem.
      destruct ((filter _ rows).*2) eqn:Hf; [done|]. congruence.
Qed.

End DailyRevenue.

(** ** The profile routes *)

Section UserProperties.

Variable phone_test : string → bool.
Variable email_test : string → bool.
Variable bcrypt_compare : string → string → bool.
Variable bcrypt_hash : string → string → string.

Lemma falsy_false s : falsy s = false → ∃ t, s = Some t ∧ t ≠ EmptyString.
Proof.
  destruct s as [[|c t]|]; simpl; intros H; try done.
  by exists (String c t).
Qed.

Lemma z_string_min_Some n j s :
  z_string_min n j = Some s → j = JStr s ∧ (n ≤ String.length s)%nat.
Proof.
  destruct j as [| | |t| |]; try done. unfold z_string_min.
  destruct (n <=? String.length t)%nat eqn:Hlen; [|done].
  intros [= ->]. split; [done | by apply Nat.leb_le].
Qed.

Lemma z_optional_Some {A} (schema : json → option A) v a :
  z_optional schema v = Some (Some a) → ∃ j, v = Some j ∧ schema j = Some a.
Proof.
  destruct v as [j|]; [|done]. unfold z_optional.
  destruct (schema j) as [a'|] eqn:Hj; [|done]. intros [= <-]. by exists j.
Qed.

Lemma z_string_Some j s : z_string j = Some s → j = JStr s.
Proof. destruct j; try done. by intros [= ->]. Qed.

Lemma updatePasswordSchema_Some body data :
  updatePasswordSchema body = Some data →
  ∃ o, body = JObj o
       ∧ o !! "newPassword" = Some (JStr (Users.newPassword data))
       ∧ (8 ≤ String.length (Users.newPassword data))%nat
       ∧ (∀ cur, Users.currentPassword data = Some cur →
                 o !! "currentPassword" = Some (JStr cur)).
Proof.
  destruct body as [| | | | |o]; try done. unfold updatePasswordSchema.
  intros H. exists o.
  apply bind_Some in H as (cur & Hcur & H).
  apply bind_Some in H as (new & Hnew & [= <-]).
  apply bind_Some in Hnew as (j & Hj & Hnew).
  apply z_string_min_Some in Hnew as [-> Hlen]. cbn.
  split; [done|]. split; [done|]. split; [done|].
  intros c ->. apply z_optional_Some in Hcur as (j & -> & Hcur).
  by apply z_string_Some in Hcur as ->.
Qed.

Lemma user_update_cases env users i row :
  user_update env 0 users i row = inr (<[i := row]> users)
  ∨ ∃ e, user_update env 0 users i row = inl e.
Proof.
  unfold user_update. destruct (write_fails env 0); [right; by eexists|].
  destruct (users !! i); [by left | right; by eexists].
Qed.

Lemma update_password_frame salt env users req :
  (update_password bcrypt_compare bcrypt_hash salt env users req).2 = users
  ∨ ∃ u u',
      users !! user req = Some u
      ∧ (update_password bcrypt_compare bcrypt_hash salt env users req).2
        = <[user req := u']> users
      ∧ Users.businessPhone u' = Users.businessPhone u
      ∧ Users.businessEmail u' = Users.businessEmail u.
Proof.
  unfold update_password.
  destruct (updatePasswordSchema (body req)) as [data|]; [|by left].
  destruct (users !! user req) as [u|] eqn:Hu; [|by left].
  match goal with
  | |- context [user_update env 0 users (user req) ?r] =>
      set (row := r);
      destruct (user_update_cases env users (user req) row) as [Hw|[e Hw]]
  end; rewrite Hw.
  - repeat match goal with
           | |- context [if ?b then _ else _] => destruct b
           end; try (by left); right; by exists u, row.
  - left.
    repeat match goal with
           | |- context [if ?b then _ else _] => destruct b
           end; done.
Qed.

(** X20. The password route changes a password only after it has checked
    the current one: a call either passes an error on and leaves every user
    as they were, or it writes the caller's row and no other, with the hash
    of a new password of 8 characters or more, [hasPassword] set and the
    other columns of the profile kept; and then the caller is a Google user
    who had no password yet, or the body gave a current password that
    matches the stored hash and the new password does not match it. *)
Theorem update_password_checked salt env users req :
  let out := (update_password bcrypt_compare bcrypt_hash salt env users req).1 in
  let users' := (update_password bcrypt_compare bcrypt_hash salt env users req).2 in
  (users' = users ∧ ∃ e, out = UserNext e)
  ∨ ∃ u u' data,
      updatePasswordSchema (body req) = Some data
      ∧ users !! user req = Some u
      ∧ users' = <[user req := u']> users
      ∧ out = UserMessage (if Users.hasPassword u
                           then "Kata sandi berhasil diperbarui"
                           else "Kata sandi berhasil diatur")
      ∧ (8 ≤ String.length (Users.newPassword data))%nat
      ∧ Users.password u' = bcrypt_hash salt (Users.newPassword data)
      ∧ Users.hasPassword u' = true
      ∧ Users.email u' = Users.email u
      ∧ Users.isGoogleUser u' = Users.isGoogleUser u
      ∧ Users.businessName u' = Users.businessName u
      ∧ Users.businessLogo u' = Users.businessLogo u
      ∧ Users.businessEmail u' = Users.businessEmail u
      ∧ Users.businessPhone u' = Users.businessPhone u
      ∧ Users.businessAddress u' = Users.businessAddress u
      ∧ ((Users.isGoogleUser u = true ∧ Users.hasPassword u = false)
         ∨ ∃ cur,
             Users.currentPassword data = Some cur
             ∧ bcrypt_compare cur (Users.password u) = true
             ∧ bcrypt_compare (Users.newPassword data) (Users.password u) = false).
Proof.
  cbv zeta. unfold update_password.
  destruct (updatePasswordSchema (body req)) as [data|] eqn:Hdata;
    [|left; split; [done | by eexists]].
  destruct (users !! user req) as [u|] eqn:Hu;
    [|left; split; [done | by eexists]].
  pose proof (updatePasswordSchema_Some _ _ Hdata) as (o & _ & _ & Hlen & _).
  match goal with
  | |- context [user_update env 0 users (user req) ?r] =>
      set (row := r);
      destruct (user_update_cases env users (user req) row) as [Hw|[e Hw]]
  end.
  2:{ left. rewrite Hw.
      repeat match goal with
             | |- context [if ?b then _ else _] => destruct b
             end; (split; [done | by eexists]). }
  rewrite Hw.
  destruct (negb (Users.isGoogleUser u)
            || Users.isGoogleUser u && Users.hasPassword u) eqn:Hmust.
  - destruct (falsy (Users.currentPassword data)) eqn:Hcur;
      [left; split; [done | by eexists]|].
    apply falsy_false in Hcur as (cur & Hcur & _). rewrite Hcur. simpl.
    destruct (bcrypt_compare cur (Users.password u)) eqn:Hold; simpl;
      [|left; split; [done | by eexists]].
    destruct (bcrypt_compare (Users.newPassword data) (Users.password u)) eqn:Hnew;
      [left; split; [done | by eexists]|].
    right. exists u, row, data. repeat (split; [done|]).
    right. by exists cur.
  - right. exists u, row, data. repeat (split; [done|]).
    left. by destruct (Users.isGoogleUser u), (Users.hasPassword u).
Qed.

(** X21. The two routes that set a password disagree on a user who signed
    up by hand and whose [hasPassword] is still false, the default of the
    column: for a body that holds a new password of 8 characters or more and
    nothing else, the password route refuses with 400 because the current
    password is missing and writes nothing, while the profile route, the
    database working, stores the hash of the new password without any check
    of the current one. *)
Theorem profile_sets_password_unchecked salt env users req u new :
  users !! user req = Some u →
  Users.hasPassword u = false →
  Users.isGoogleUser u = false →
  body req = JObj {[ "newPassword" := JStr new ]} →
  (8 ≤ String.length new)%nat →
  outage env = None →
  update_password bcrypt_compare bcrypt_hash salt env users req
  = (UserNext (AppError 400 "Kata sandi saat ini wajib diisi"), users)
  ∧ ∃ u',
      (update_profile phone_test email_test bcrypt_compare bcrypt_hash
         salt env users req).2
      = <[user req := u']> users
      ∧ (update_profile phone_test email_test bcrypt_compare bcrypt_hash
           salt env users req).1
        = UserData (selected (user req) u')
      ∧ Users.password u' = bcrypt_hash salt new
      ∧ Users.hasPassword u' = true.
Proof.
  intros Hu Hhas Hgoogle Hbody Hlen Hout.
  assert (new ≠ EmptyString) as Hnew.
  { intros ->. simpl in Hlen. lia. }
  assert (falsy (Some new) = false) as Hfalsy by (by destruct new).
  assert (z_string_min 8 (JStr new) = Some new) as Hmin.
  { unfold z_string_min. apply Nat.leb_le in Hlen. by rewrite Hlen. }
  assert (updatePasswordSchema (body req)
          = Some {| Users.currentPassword := None; Users.newPassword := new |})
    as Hp.
  { rewrite Hbody. unfold updatePasswordSchema.
    rewrite (lookup_singleton_ne "newPassword" "currentPassword") by done.
    rewrite lookup_singleton_eq.
    change (Some (JStr new) ≫= z_string_min 8) with (z_string_min 8 (JStr new)).
    by rewrite Hmin. }
  assert (updateProfileSchema phone_test email_test (body req)
          = Some {| Users.in_businessName := None; Users.in_businessLogo := None;
                    Users.in_businessAddress := None;
                    Users.in_businessPhone := None;
                    Users.in_businessEmail := None;
                    Users.in_currentPassword := None;
                    Users.in_newPassword := Some new |}) as Hq.
  { rewrite Hbody. unfold updateProfileSchema.
    rewrite (lookup_singleton_ne "newPassword" "businessName") by done.
    rewrite (lookup_singleton_ne "newPassword" "businessLogo") by done.
    rewrite (lookup_singleton_ne "newPassword" "businessAddress") by done.
    rewrite (lookup_singleton_ne "newPassword" "businessPhone") by done.
    rewrite (lookup_singleton_ne "newPassword" "businessEmail") by done.
    rewrite (lookup_singleton_ne "newPassword" "currentPassword") by done.
    rewrite lookup_singleton_eq. unfold z_optional. by rewrite Hmin. }
  split.
  - unfold update_password. rewrite Hp, Hu, Hgoogle. reflexivity.
  - unfold update_profile. rewrite Hq, Hu. unfold passwordUpdate.
    cbn [Users.in_newPassword Users.in_currentPassword].
    rewrite Hfalsy, Hhas. cbn [andb]. unfold user_update.
    rewrite (write_fails_no_outage env 0 Hout), Hu.
    eexists. split; [reflexivity|]. split; [reflexivity|]. done.
Qed.

Lemma z_clearable_Some test v s :
  z_clearable test v = Some (Some (Some s)) → test s = true.
Proof.
  destruct v as [[| | |t| |]|]; try done. unfold z_clearable.
  destruct (bool_decide (t = EmptyString)); [done|].
  destruct (test t) eqn:Ht; [|done]. by intros [= <-].
Qed.

Lemma updateProfileSchema_Some body data :
  updateProfileSchema phone_test email_test body = Some data →
  ∃ o, body = JObj o
       ∧ (∀ new, Users.in_newPassword data = Some new →
                 o !! "newPassword" = Some (JStr new))
       ∧ (∀ cur, Users.in_currentPassword data = Some cur →
                 o !! "currentPassword" = Some (JStr cur))
       ∧ (∀ s, Users.in_businessPhone data = Some (Some s) → phone_test s = true)
       ∧ (∀ s, Users.in_businessEmail data = Some (Some s) → email_test s = true).
Proof.
  destruct body as [| | | | |o]; try done. unfold updateProfileSchema.
  intros H. exists o. split; [done|].
  apply bind_Some in H as (name & _ & H).
  apply bind_Some in H as (logo & _ & H).
  apply bind_Some in H as (address & _ & H).
  apply bind_Some in H as (phone & Hphone & H).
  apply bind_Some in H as (mail & Hmail & H).
  apply bind_Some in H as (cur & Hcur & H).
  apply bind_Some in H as (new & Hnew & [= <-]). cbn.
  split; [|split; [|split]].
  - intros s ->. apply z_optional_Some in Hnew as (j & -> & Hnew).
    by apply z_string_min_Some in Hnew as [-> _].
  - intros s ->. apply z_optional_Some in Hcur as (j & -> & Hcur).
    by apply z_string_Some in Hcur as ->.
  - intros s ->. by apply z_clearable_Some in Hphone.
  - intros s ->. by apply z_clearable_Some in Hmail.
Qed.

Lemma passwordUpdate_cases salt u cur new :
  passwordUpdate bcrypt_compare bcrypt_hash salt u cur new = None
  ∨ (∃ e, passwordUpdate bcrypt_compare bcrypt_hash salt u cur new = Some (inl e))
  ∨ ∃ n, new = Some n
         ∧ passwordUpdate bcrypt_compare bcrypt_hash salt u cur new
           = Some (inr (bcrypt_hash salt n))
         ∧ (Users.hasPassword u = true →
            ∃ c, cur = Some c ∧ bcrypt_compare c (Users.password u) = true
                 ∧ bcrypt_compare n (Users.password u) = false).
Proof.
  unfold passwordUpdate.
  destruct (falsy new) eqn:Hnew; [by left|]. right.
  apply falsy_false in Hnew as (n & -> & _). simpl.
  destruct (Users.hasPassword u); simpl.
  - destruct (falsy cur) eqn:Hcur; simpl; [left; by eexists|].
    apply falsy_false in Hcur as (c & -> & _). simpl.
    destruct (bcrypt_compare c (Users.password u)) eqn:Hold; simpl;
      [|left; by eexists].
    destruct (bcrypt_compare n (Users.password u)) eqn:Hsame;
      [left; by eexists|].
    right. exists n. split; [done|]. split; [done|]. intros _. by exists c.
  - right. exists n. split; [done|]. split; [done|]. done.
Qed.

(** X22. The profile route writes at most the caller's row: every other
    user stays as they were and no user is added or removed. Of the caller's
    row the email and [isGoogleUser] are kept, [hasPassword] is never taken
    back, and the password changes only to the hash of a new password that
    the body gives, which for a user with [hasPassword] set needs a current
    password in the body that matches the stored hash. *)
Theorem update_profile_frame salt env users req :
  let users' := (update_profile phone_test email_test bcrypt_compare bcrypt_hash
                   salt env users req).2 in
  (∀ j, j ≠ user req → users' !! j = users !! j)
  ∧ (users !! user req = None → users' !! user req = None)
  ∧ ∀ u, users !! user req = Some u →
         ∃ u', users' !! user req = Some u'
               ∧ Users.email u' = Users.email u
               ∧ Users.isGoogleUser u' = Users.isGoogleUser u
               ∧ (Users.hasPassword u = true → Users.hasPassword u' = true)
               ∧ (Users.password u' ≠ Users.password u →
                  ∃ o new,
                    body req = JObj o
                    ∧ o !! "newPassword" = Some (JStr new)
                    ∧ Users.password u' = bcrypt_hash salt new
                    ∧ Users.hasPassword u' = true
                    ∧ (Users.hasPassword u = true →
                       ∃ cur, o !! "currentPassword" = Some (JStr cur)
                              ∧ bcrypt_compare cur (Users.password u) = true)).
Proof.
  cbv zeta. unfold update_profile.
  destruct (updateProfileSchema phone_test email_test (body req)) as [data|] eqn:Hdata.
  2:{ split; [done|]. split; [done|]. intros u Hu. exists u. by repeat split. }
  destruct (users !! user req) as [u|] eqn:Hu.
  2:{ split; [done|]. split; [done|]. done. }
  pose proof (updateProfileSchema_Some _ _ Hdata) as (o & Hbody & Hnew & Hcur & _).
  assert (∀ row,
    let users' := match user_update env 0 users (user req) row with
                  | inl e => (UserNext (Prisma e), users)
                  | inr users1 => (UserData (selected (user req) row), users1)
                  end.2 in
    (∀ j, j ≠ user req → users' !! j = users !! j)
    ∧ (users' !! user req = Some u ∨ users' !! user req = Some row)) as Hwrite.
  { intros row. cbv zeta.
    destruct (user_update_cases env users (user req) row) as [->|[e ->]]; simpl.
    - split; [|right; by rewrite lookup_insert_eq].
      intros j Hj. by rewrite lookup_insert_ne.
    - split; [done | by left]. }
  destruct (passwordUpdate_cases salt u (Users.in_currentPassword data)
              (Users.in_newPassword data)) as [Hp|[[e Hp]|(n & Hn & Hp & Hchk)]];
    rewrite Hp.
  - destruct (Hwrite (profile_row env u data None)) as [Hother Hrow].
    split; [done|]. split; [done|]. intros ? [= <-].
    destruct Hrow as [Hrow|Hrow]; rewrite Hrow; eexists; (split; [done|]);
      by repeat split.
  - split; [done|]. split; [done|]. intros ? [= <-]. exists u.
    by repeat split.
  - destruct (Hwrite (profile_row env u data (Some (bcrypt_hash salt n))))
      as [Hother Hrow].
    split; [done|]. split; [done|]. intros ? [= <-].
    destruct Hrow as [Hrow|Hrow]; rewrite Hrow; eexists; (split; [done|]).
    + by repeat split.
    + split; [done|]. split; [done|]. split; [done|]. intros _.
      exists o, n. split; [done|]. split; [by apply Hnew|].
      split; [done|]. split; [done|]. intros Hhas.
      destruct (Hchk Hhas) as (c & Hc & Hold & _). exists c.
      split; [by apply Hcur | done].
Qed.

(** X23. Neither route stores a phone number or a business email that
    fails its pattern: when every stored phone number and business email
    passes the test of the profile schema before a call of the profile route
    or of the password route, the same holds after it. *)
Theorem profile_keeps_contacts_valid salt env users req :
  let valid (us : gmap string Users.User) :=
    ∀ j u, us !! j = Some u →
           (∀ s, Users.businessPhone u = Some s → phone_test s = true)
           ∧ (∀ s, Users.businessEmail u = Some s → email_test s = true) in
  valid users →
  valid (update_profile phone_test email_test bcrypt_compare bcrypt_hash
           salt env users req).2
  ∧ valid (update_password bcrypt_compare bcrypt_hash salt env users req).2.
Proof.
  cbv zeta. intros Hvalid. split.
  - unfold update_profile.
    destruct (updateProfileSchema phone_test email_test (body req))
      as [data|] eqn:Hdata; [|done].
    destruct (users !! user req) as [u|] eqn:Hu; [|done].
    pose proof (updateProfileSchema_Some _ _ Hdata)
      as (o & _ & _ & _ & Hphone & Hmail).
    destruct (Hvalid _ _ Hu) as [Hp Hm].
    assert (∀ hashed j u',
      match user_update env 0 users (user req) (profile_row env u data hashed) with
      | inl e => (UserNext (Prisma e), users)
      | inr users1 =>
          (UserData (selected (user req) (profile_row env u data hashed)), users1)
      end.2 !! j = Some u' →
      (∀ s, Users.businessPhone u' = Some s → phone_test s = true)
      ∧ (∀ s, Users.businessEmail u' = Some s → email_test s = true)) as Hwrite.
    { intros hashed j u'.
      destruct (user_update_cases env users (user req) (profile_row env u data hashed))
        as [->|[e ->]]; simpl; [|apply Hvalid].
      destruct (decide (j = user req)) as [->|Hj].
      - rewrite lookup_insert_eq. intros [= <-]. simpl. split; intros s.
        + destruct (Users.in_businessPhone data) as [[t|]|] eqn:Hin; simpl;
            [|done|apply Hp]. intros [= ->]. by apply Hphone.
        + destruct (Users.in_businessEmail data) as [[t|]|] eqn:Hin; simpl;
            [|done|apply Hm]. intros [= ->]. by apply Hmail.
      - rewrite lookup_insert_ne by done. apply Hvalid. }
    destruct (passwordUpdate bcrypt_compare bcrypt_hash salt u
                (Users.in_currentPassword data) (Users.in_newPassword data))
      as [[e|h]|]; [apply Hvalid | apply Hwrite | apply Hwrite].
  - destruct (update_password_frame salt env users req) as [->|(u & u' & Hu & -> & Hphone & Hmail)];
      [done|].
    intros j w. destruct (decide (j = user req)) as [->|Hj].
    + rewrite lookup_insert_eq. intros [= <-]. rewrite Hphone, Hmail.
      by apply (Hvalid (user req) u).
    + rewrite lookup_insert_ne by done. apply Hvalid.
Qed.

End UserProperties.
(** ** The further theorems at sample requests *)




Lemma update_ignores_unknown_keys_sample :
  update_invoice Sample.Date_parse Sample.z_datetime (Sample.env "u0" None)
    (Sample.db1 "alice" UNPAID None)
    {| user := "alice"; params_id := "i1";
       body := JObj (<["total" := JNum 0]> {[ "status" := JStr "PAID" ]}) |}
  = update_invoice Sample.Date_parse Sample.z_datetime (Sample.env "u0" None)
      (Sample.db1 "alice" UNPAID None)
      {| user := "alice"; params_id := "i1";
         body := JObj {[ "status" := JStr "PAID" ]} |}.
Proof.
  apply (update_ignores_unknown_keys Sample.Date_parse Sample.z_datetime
           (Sample.env "u0" None) (Sample.db1 "alice" UNPAID None)
           {| user := "alice"; params_id := "i1";
              body := JObj {[ "status" := JStr "PAID" ]} |}
           {[ "status" := JStr "PAID" ]} "total" (JNum 0)).
  - reflexivity.
  - apply (bool_decide_unpack _). vm_compute. reflexivity.
Defined.

Lemma create_ignores_unknown_keys_sample :
  create_invoice Sample.Date_parse (Sample.env "i1" None) (Sample.db0 (Some "INV") 7)
    {| user := "alice"; params_id := EmptyString;
       body := JObj (<["status" := JStr "PAID"]>
                       (list_to_map
                          [("customerId", JStr "c1"); ("date", JStr "2024-01-01");
                           ("dueDate", JStr "2024-02-01");
                           ("items", JArr Sample.two_items);
                           ("taxRate", JNum 10)])) |}
  = create_invoice Sample.Date_parse (Sample.env "i1" None) (Sample.db0 (Some "INV") 7)
      (Sample.post "alice" (Sample.create_body Sample.two_items 10)).
Proof.
  apply (create_ignores_unknown_keys Sample.Date_parse (Sample.env "i1" None)
           (Sample.db0 (Some "INV") 7)
           (Sample.post "alice" (Sample.create_body Sample.two_items 10))
           (list_to_map
              [("customerId", JStr "c1"); ("date", JStr "2024-01-01");
               ("dueDate", JStr "2024-02-01"); ("items", JArr Sample.two_items);
               ("taxRate", JNum 10)])
           "status" (JStr "PAID")).
  - reflexivity.
  - apply (bool_decide_unpack _). vm_compute. reflexivity.
Defined.

Lemma cancelled_is_final_sample :
  let calls :=
    [ {| route := PATCH; call_env := Sample.env "u0" None;
         call_req := Sample.patch "alice" "i1" [("status", JStr "UNPAID")] |};
      {| route := PATCH; call_env := Sample.env "u0" None;
         call_req := Sample.patch "alice" "i1" [("notes", JStr "x")] |};
      Sample.create_call "i2" None ] in
  invoice (run Sample.Date_parse Sample.z_datetime
             (Sample.db1 "alice" CANCELLED None) calls).1 !! "i1"
  = Some (Sample.invoice_A "i1" "alice" CANCELLED None)
  ∨ invoice (run Sample.Date_parse Sample.z_datetime
               (Sample.db1 "alice" CANCELLED None) calls).1 !! "i1"
    = None.
Proof.
  cbv zeta.
  apply (cancelled_is_final Sample.Date_parse Sample.z_datetime).
  - reflexivity.
  - reflexivity.
  - repeat (constructor; [simpl; intros; discriminate|]). constructor.
Defined.

Lemma paid_only_cancelled_or_deleted_sample :
  let calls :=
    [ {| route := PATCH; call_env := Sample.env "u0" None;
         call_req := Sample.patch "alice" "i1" [("status", JStr "UNPAID")] |};
      {| route := PATCH; call_env := Sample.env "u0" None;
         call_req := Sample.patch "alice" "i1" [("status", JStr "CANCELLED")] |};
      Sample.create_call "i2" None ] in
  invoice (run Sample.Date_parse Sample.z_datetime
             (Sample.db1 "alice" PAID (Some 500)) calls).1 !! "i1"
  = Some (Sample.invoice_A "i1" "alice" PAID (Some 500))
  ∨ (∃ inv', invoice (run Sample.Date_parse Sample.z_datetime
                        (Sample.db1 "alice" PAID (Some 500)) calls).1 !! "i1"
             = Some inv'
             ∧ status inv' = CANCELLED)
  ∨ invoice (run Sample.Date_parse Sample.z_datetime
               (Sample.db1 "alice" PAID (Some 500)) calls).1 !! "i1"
    = None.
Proof.
  cbv zeta.
  apply (paid_only_cancelled_or_deleted Sample.Date_parse Sample.z_datetime).
  - reflexivity.
  - reflexivity.
  - repeat (constructor; [simpl; intros; discriminate|]). constructor.
Defined.

Lemma create_blocked_by_taken_number_sample :
  let db :=
    {| settings := {[ "alice" := {| invoicePrefix := Some "INV";
                                    nextInvoiceNumber := 1 |} ]};
       customer := {[ "c1" ]};
       invoice := {[ "i1" := Sample.invoice_A "i1" "alice" UNPAID None ]} |} in
  (create_invoice Sample.Date_parse (Sample.env "i2" None) db
     (Sample.post "alice" (Sample.create_body Sample.two_items 10))).2
  = db
  ∧ is_success
      (create_invoice Sample.Date_parse (Sample.env "i2" None) db
         (Sample.post "alice" (Sample.create_body Sample.two_items 10))).1
    = false.
Proof.
  cbv zeta.
  apply (create_blocked_by_taken_number Sample.Date_parse (Sample.env "i2" None) _
           (Sample.post "alice" (Sample.create_body Sample.two_items 10))
           {| invoicePrefix := Some "INV"; nextInvoiceNumber := 1 |}).
  - reflexivity.
  - vm_compute. reflexivity.
Defined.

Lemma failed_increment_blocks_tenant_sample :
  let db :=
    (create_invoice Sample.Date_parse (Sample.env "i1" (Some 1%nat))
       (Sample.db0 (Some "INV") 7)
       (Sample.post "alice" (Sample.create_body Sample.two_items 10))).2 in
  (create_invoice Sample.Date_parse (Sample.env "i2" None) db
     (Sample.post "alice" (Sample.create_body Sample.two_items 10))).2
  = db
  ∧ is_success
      (create_invoice Sample.Date_parse (Sample.env "i2" None) db
         (Sample.post "alice" (Sample.create_body Sample.two_items 10))).1
    = false.
Proof.
  cbv zeta.
  apply (failed_increment_blocks_tenant Sample.Date_parse
           (Sample.env "i1" (Some 1%nat)) (Sample.db0 (Some "INV") 7)
           (Sample.post "alice" (Sample.create_body Sample.two_items 10))
           (Sample.env "i2" None)
           (Sample.post "alice" (Sample.create_body Sample.two_items 10))).
  - intros H. apply (f_equal (λ d, invoice d !! "i1")) in H.
    vm_compute in H. discriminate H.
  - vm_compute. reflexivity.
  - reflexivity.
Defined.

Lemma create_defaults_sample :
  let r :=
    create_invoice Sample.Date_parse (Sample.env "i1" None)
      (Sample.db0 (Some "INV") 7)
      (Sample.post "alice" (Sample.create_body Sample.two_items 10)) in
  invoice r.2 !! "i1" = Some (Sample.created "i1" "INV00007")
  ∧ status (Sample.created "i1" "INV00007") = UNPAID.
Proof.
  cbv zeta.
  destruct (create_defaults Sample.Date_parse (Sample.env "i1" None)
              (Sample.db0 (Some "INV") 7)
              (Sample.post "alice" (Sample.create_body Sample.two_items 10))
              (Sample.created "i1" "INV00007")
              (create_invoice Sample.Date_parse (Sample.env "i1" None)
                 (Sample.db0 (Some "INV") 7)
                 (Sample.post "alice" (Sample.create_body Sample.two_items 10))).2)
    as (Hstored & _ & _ & Hstatus & _).
  - vm_compute. reflexivity.
  - split; [exact Hstored | exact Hstatus].
Defined.


Lemma profile_sets_password_unchecked_sample :
  update_password SampleUsers.bcrypt_compare SampleUsers.bcrypt_hash "salt"
    (Sample.env "u0" None) SampleUsers.users SampleUsers.new_password
  = (UserNext (AppError 400 "Kata sandi saat ini wajib diisi"), SampleUsers.users)
  ∧ ∃ u',
      (update_profile SampleUsers.phone_test SampleUsers.email_test
         SampleUsers.bcrypt_compare SampleUsers.bcrypt_hash "salt"
         (Sample.env "u0" None) SampleUsers.users SampleUsers.new_password).2
      = <["alice" := u']> SampleUsers.users
      ∧ (update_profile SampleUsers.phone_test SampleUsers.email_test
           SampleUsers.bcrypt_compare SampleUsers.bcrypt_hash "salt"
           (Sample.env "u0" None) SampleUsers.users SampleUsers.new_password).1
        = UserData (selected "alice" u')
      ∧ Users.password u' = "saltpassword2"
      ∧ Users.hasPassword u' = true.
Proof.
  apply (profile_sets_password_unchecked SampleUsers.phone_test
           SampleUsers.email_test SampleUsers.bcrypt_compare
           SampleUsers.bcrypt_hash "salt" (Sample.env "u0" None)
           SampleUsers.users SampleUsers.new_password SampleUsers.alice
           "password2").
  - reflexivity.
  - reflexivity.
  - reflexivity.
  - reflexivity.
  - simpl. lia.
  - reflexivity.
Defined.

Lemma profile_keeps_contacts_valid_sample :
  let req :=
    {| user := "alice"; params_id := EmptyString;
       body := JObj {[ "businessPhone" := JStr EmptyString ]} |} in
  ∃ u,
    (update_profile SampleUsers.phone_test SampleUsers.email_test
       SampleUsers.bcrypt_compare SampleUsers.bcrypt_hash "salt"
       (Sample.env "u0" None) SampleUsers.users req).2 !! "alice" = Some u
    ∧ Users.businessPhone u = None
    ∧ ∃ s, Users.businessEmail u = Some s ∧ SampleUsers.email_test s = true.
Proof.
  cbv zeta. eexists. split; [vm_compute; reflexivity|].
  split; [reflexivity|]. eexists. split; [reflexivity|].
  assert (∀ j u, SampleUsers.users !! j = Some u →
            (∀ s, Users.businessPhone u = Some s → SampleUsers.phone_test s = true)
            ∧ (∀ s, Users.businessEmail u = Some s
                    → SampleUsers.email_test s = true)) as Hvalid.
  { intros j u Hu. unfold SampleUsers.users in Hu.
    apply lookup_singleton_Some in Hu as [_ <-].
    split; intros s [= <-]; reflexivity. }
  destruct (profile_keeps_contacts_valid SampleUsers.phone_test
              SampleUsers.email_test SampleUsers.bcrypt_compare
              SampleUsers.bcrypt_hash "salt" (Sample.env "u0" None)
              SampleUsers.users
              {| user := "alice"; params_id := EmptyString;
                 body := JObj {[ "businessPhone" := JStr EmptyString ]} |}
              Hvalid) as [Hprofile _].
  eapply (proj2 (Hprofile "alice" _ ltac:(vm_compute; reflexivity))).
  reflexivity.
Defined.
